(** * Hardened startup script (src/app.ts): a shallow embedding

    The script is a single-threaded Node program: module-level state
    ([serverInstance], [shuttingDown]), one synchronous helper
    ([runOptionalAuditCheck]), two async functions ([app], [shutdown]) and
    four process-level listeners.  It is embedded as

    - a record [Host] for everything the script obtains from outside
      (environment, the result of the audit subprocess, [JSON.parse], the
      conversions between numbers and their texts);
    - a record [Proc] for the process: the two module-level variables, the
      point where [app] and [shutdown] are parked at an [await], the calls
      made to the outside so far ([trace]) and the exit code once
      [process.exit] was called;
    - a small state-and-completion monad [M] in which each synchronous stretch
      of the script is written, with [try_catch] and [try_finally];
    - an event loop [step] that feeds one settled promise, expired timer,
      signal or fault to the parked code. *)

From stdpp Require Import gmap strings list pretty.
From Stdlib Require Import ZArith Lia DecimalString DecimalZ Floats.

Set Warnings "-register-all".
Local Open Scope string_scope.
Local Open Scope list_scope.
Local Open Scope Z_scope.

(** ** Values *)

(** The delay of the start timer: a whole number of milliseconds, or [NaN].
    (The numbers of the audit report are doubles, see [Json].) *)
Inductive JsNumber :=
| NaN
| Num (z : Z).

#[global] Instance JsNumber_eq_dec : EqDecision JsNumber.
Proof. solve_decision. Defined.

(** An [Error] object, by the two properties the script reads. *)
Record JsError := mkJsError { name : string; message : string }.

#[global] Instance JsError_eq_dec : EqDecision JsError.
Proof. solve_decision. Defined.

(** What can be thrown or be the reason of a rejection: an [Error] object, or
    any other value, kept as the text [String(value)] (such a value has no
    truthy [message] or [stack]). *)
Inductive Thrown :=
| ErrorObj (e : JsError)
| NonError (text : string).

#[global] Instance Thrown_eq_dec : EqDecision Thrown.
Proof. solve_decision. Defined.

(** [new Error(msg)] *)
Definition Error (msg : string) : Thrown := ErrorObj (mkJsError "Error" msg).
Definition TypeError (msg : string) : Thrown := ErrorObj (mkJsError "TypeError" msg).

Definition nonempty (s : string) : bool :=
  match s with EmptyString => false | String _ _ => true end.

(** [Error.prototype.toString] *)
Definition Error_toString (e : JsError) : string :=
  if nonempty (message e)
  then (if nonempty (name e) then name e +:+ ": " +:+ message e else message e)
  else name e.

(** [String(err)] *)
Definition String_of (err : Thrown) : string :=
  match err with
  | ErrorObj e => Error_toString e
  | NonError text => text
  end.

(** [err && err.message ? err.message : String(err)] *)
Definition message_or_string (err : Thrown) : string :=
  match err with
  | ErrorObj e => if nonempty (message e) then message e else String_of err
  | NonError _ => String_of err
  end.

(** A parsed JSON document.  A number is an IEEE 754 double, as
    [JSON.parse] produces it.  An object keeps its properties in enumeration
    order, which is the order [Object.values] visits. *)
Inductive Json :=
| JNull
| JBool (b : bool)
| JNumber (x : float)
| JString (s : string)
| JArray (items : list Json)
| JObject (props : list (string * Json)).

(** The numbers that count as false: [+0], [-0] and [NaN]. *)
Definition number_falsy (x : float) : bool :=
  PrimFloat.eqb x 0 || PrimFloat.is_nan x.

(** Truthiness of a JSON value. *)
Definition truthy (v : Json) : bool :=
  match v with
  | JNull => false
  | JBool b => b
  | JNumber x => negb (number_falsy x)
  | JString s => nonempty s
  | JArray _ | JObject _ => true
  end.

Fixpoint assoc (key : string) (props : list (string * Json)) : option Json :=
  match props with
  | [] => None
  | (k, v) :: rest => if decide (k = key) then Some v else assoc key rest
  end.

(** [v.key] for a key that is no built-in member ([metadata],
    [vulnerabilities]): [inr] is the TypeError of reading a property of
    [null], [inl None] is [undefined]. *)
Definition get_prop (v : Json) (key : string) : option Json + Thrown :=
  match v with
  | JNull => inr (TypeError ("Cannot read properties of null (reading '" +:+ key +:+ "')"))
  | JObject props => inl (assoc key props)
  | _ => inl None
  end.

(** ** The host *)

(** The object [spawnSync] returns, by the two properties read.  With
    [encoding: 'utf8'], [stdout] is a string or [null]. *)
Record SpawnResult := mkSpawnResult {
  error : option JsError;
  stdout : option string
}.

Record Host := mkHost {
  env : gmap string string;                (* process.env *)
  npm_audit : SpawnResult;                 (* what spawnSync('npm', ['audit', ...]) returns *)
  JSON_parse : string -> Json + Thrown;    (* JSON.parse: the value, or the SyntaxError thrown *)
  StringToNumber : string -> JsNumber;     (* Number(s), s the text of the timer delay *)
  StringToDouble : string -> float;        (* the double a text is compared as in text > 0 *)
  Number_toString : float -> string        (* the text of a double, as in 0 + 'x' *)
}.

(** [Number(process.env.X)]: [undefined] converts to [NaN]. *)
Definition Number_of_env (h : Host) (var : string) : JsNumber :=
  match env h !! var with
  | None => NaN
  | Some s => StringToNumber h s
  end.

(** [n || fallback] on numbers: [NaN] and [0] are falsy. *)
Definition number_or (n : JsNumber) (fallback : Z) : JsNumber :=
  match n with
  | NaN => Num fallback
  | Num z => if z =? 0 then Num fallback else Num z
  end.

(** ** Adding up JSON values *)

(** What the conversion of an object to a primitive throws when the object
    offers no callable [toString] or [valueOf] that returns a primitive. *)
Definition cannot_convert : Thrown := TypeError "Cannot convert object to primitive value".

(** The text of a JSON value: the conversion to a primitive, then to a
    string.  An object parsed from JSON prints through the inherited
    [Object.prototype.toString] unless it has a property [toString] of its
    own, whose value, coming from JSON, is no function: then the conversion
    throws (the inherited [valueOf] returns the object itself and is of no
    help).  An array prints through [join], which converts its elements in
    turn and prints [null] as the empty string. *)
Fixpoint Json_toString (h : Host) (v : Json) : string + Thrown :=
  match v with
  | JNull => inl "null"
  | JBool true => inl "true"
  | JBool false => inl "false"
  | JNumber x => inl (Number_toString h x)
  | JString s => inl s
  | JArray items =>
      (fix join (l : list Json) : string + Thrown :=
         match l with
         | [] => inl ""
         | x :: rest =>
             match (match x with JNull => inl "" | _ => Json_toString h x end) with
             | inr e => inr e
             | inl here =>
                 match rest with
                 | [] => inl here
                 | _ :: _ =>
                     match join rest with
                     | inr e => inr e
                     | inl there => inl (here +:+ "," +:+ there)
                     end
                 end
             end
         end) items
  | JObject props =>
      match assoc "toString" props with
      | Some _ => inr cannot_convert
      | None => inl "[object Object]"
      end
  end.

(** [Object.values(v)] of a truthy JSON value.  A string yields its code
    units one by one; they are only ever concatenated again. *)
Definition Object_values (v : Json) : list Json :=
  match v with
  | JObject props => props.*2
  | JArray items => items
  | JString s => (fun c => JString (String c EmptyString)) <$> String.list_ascii_of_string s
  | _ => []
  end.

(** The accumulator of [reduce((a, b) => a + b, 0)]: a number until a
    string, array or object is met, a string from then on. *)
Inductive Total :=
| TNum (x : float)
| TStr (s : string).

(** [a + b]: a number, a boolean and [null] are added to a number as
    doubles; in every other case both operands are converted to their texts
    and concatenated, and the conversion of [b] may throw. *)
Definition js_add (h : Host) (a : Total) (b : Json) : Total + Thrown :=
  match a, b with
  | TNum x, JNumber y => inl (TNum (PrimFloat.add x y))
  | TNum x, JBool c => inl (TNum (PrimFloat.add x (if c then 1 else 0)))
  | TNum x, JNull => inl (TNum (PrimFloat.add x 0))
  | TNum x, _ =>
      match Json_toString h b with
      | inr e => inr e
      | inl t => inl (TStr (Number_toString h x +:+ t))
      end
  | TStr s, _ =>
      match Json_toString h b with
      | inr e => inr e
      | inl t => inl (TStr (s +:+ t))
      end
  end.

(** [items.reduce(f, init)]: a throw of the callback ends the reduction. *)
Fixpoint Array_reduce {A B} (f : A -> B -> A + Thrown) (items : list B) (init : A) : A + Thrown :=
  match items with
  | [] => inl init
  | b :: rest =>
      match f init b with
      | inr e => inr e
      | inl a => Array_reduce f rest a
      end
  end.

Definition Total_truthy (t : Total) : bool :=
  match t with
  | TNum x => negb (number_falsy x)
  | TStr s => nonempty s
  end.

Definition Total_toString (h : Host) (t : Total) : string :=
  match t with
  | TNum x => Number_toString h x
  | TStr s => s
  end.

(** [t > 0]: a string operand is converted to a number first; every
    comparison with [NaN] is false. *)
Definition greater_than_zero (h : Host) (t : Total) : bool :=
  match t with
  | TNum x => PrimFloat.ltb 0 x
  | TStr s => PrimFloat.ltb 0 (StringToDouble h s)
  end.

(** ** Collaborators *)

(** How a promise settles. *)
Inductive Settlement :=
| Fulfilled
| Rejected (reason : Thrown).

Inductive Promise :=
| Unsettled
| Settled (s : Settlement).

(** What calling an external function does before it returns: it throws, or
    it returns a value that is awaited.  The settlement of that value
    arrives later as a stimulus, or never; a value that is no promise is
    treated as a promise that fulfils. *)
Inductive SyncCall :=
| Throws (e : Thrown)
| Returns.

(** A property of a module namespace object: missing or falsy, truthy but
    no function, or a function. *)
Inductive Member :=
| Absent
| NotCallable
| Function (body : SyncCall).

(** The namespace of [./server.js]. *)
Record ServerModule := mkServerModule { start : Member; stop : Member }.

(** The namespace of [lib/startup/validateDependenciesBasic.js]. *)
Record ValidatorModule := mkValidatorModule {
  default : Member;
  validateDependencies : Member
}.

Inductive ModulePath :=
| validateDependenciesBasic_js     (* path.join(__dirname, 'lib', 'startup', 'validateDependenciesBasic.js') *)
| server_js.                       (* './server.js' *)

Inductive SignalName := SIGINT | SIGTERM.

Definition SignalName_text (s : SignalName) : string :=
  match s with SIGINT => "SIGINT" | SIGTERM => "SIGTERM" end.

(** ** The process *)

(** One argument of a console call: a text, or the [stack] of an error
    (whose text is the host's). *)
Inductive Printed :=
| Text (s : string)
| StackOf (e : Thrown).

(** A call that leaves the script. *)
Inductive Action :=
| SpawnSync (cmd : string) (args : list string)
| JsonParse (text : string)
| Import (path : ModulePath)
| CallValidate
| CallStart
| CallStop
| SetTimeout (ms : JsNumber)
| ConsoleLog (line : list Printed)
| ConsoleError (line : list Printed)
| ProcessExit (code : Z).

(** The promises of [startServerWithTimeout]: the one [start()] returned, the
    timer's, and [Promise.race] of the two. *)
Record Race := mkRace {
  startPromise : Promise;
  timeoutPromise : Promise;
  raced : Promise
}.

(** Where [app()] stands. *)
Inductive AppPc :=
| NotCalled
| AwaitValidatorImport                   (* await import(validatePath) *)
| AwaitValidator                         (* await validateDependencies() *)
| AwaitServerImport                      (* await import('./server.js') *)
| AwaitStart (server : ServerModule)     (* await startServerWithTimeout(server, ...) *)
| AppFulfilled
| AppRejected (err : Thrown).

Record Proc := mkProc {
  serverInstance : option ServerModule;  (* let serverInstance = null *)
  shuttingDown : bool;                   (* let shuttingDown = false *)
  app_pc : AppPc;
  race : option Race;                    (* the race of the one startServerWithTimeout call *)
  awaiting_stop : bool;                  (* shutdown is parked at await serverInstance.stop() *)
  trace : list Action;                   (* oldest first *)
  exit_code : option Z                   (* Some c once process.exit(c) was called *)
}.

Definition fresh : Proc :=
  {| serverInstance := None; shuttingDown := false; app_pc := NotCalled; race := None;
     awaiting_stop := false; trace := []; exit_code := None |}.

Definition alive (p : Proc) : bool :=
  match exit_code p with None => true | Some _ => false end.

(** ** Synchronous stretches: state and completion *)

(** How a stretch of code ends: normally, by a throw, by [process.exit]
    (nothing runs after it, not even a [finally]), or parked at an [await]. *)
Inductive Res (A : Type) :=
| Value (a : A)
| Raise (e : Thrown)
| Exited
| Parked.

Arguments Value {A} a.
Arguments Raise {A} e.
Arguments Exited {A}.
Arguments Parked {A}.

Definition M (A : Type) : Type := Proc -> Res A * Proc.

Definition ret {A} (a : A) : M A := fun p => (Value a, p).

Definition bind {A B} (m : M A) (k : A -> M B) : M B :=
  fun p =>
    match m p with
    | (Value a, p') => k a p'
    | (Raise e, p') => (Raise e, p')
    | (Exited, p') => (Exited, p')
    | (Parked, p') => (Parked, p')
    end.

Notation "'let*' x ':=' m 'in' k" := (bind m (fun x => k))
  (at level 10, x name, m at level 100, k at level 200).
Notation "m ';;' k" := (bind m (fun _ => k))
  (at level 100, k at level 200, right associativity).

Definition raise {A} (e : Thrown) : M A := fun p => (Raise e, p).

Definition park {A} : M A := fun p => (Parked, p).

(** [try { body } catch (err) { handler }] *)
Definition try_catch {A} (body : M A) (handler : Thrown -> M A) : M A :=
  fun p =>
    match body p with
    | (Raise e, p') => handler e p'
    | other => other
    end.

(** [try { body } finally { final }]: [final] runs after a normal or a
    throwing [body], and its own abrupt end replaces the one of [body]. *)
Definition try_finally {A} (body : M A) (final : M unit) : M A :=
  fun p =>
    match body p with
    | (Value a, p') =>
        match final p' with
        | (Value _, p'') => (Value a, p'')
        | (Raise e, p'') => (Raise e, p'')
        | (Exited, p'') => (Exited, p'')
        | (Parked, p'') => (Parked, p'')
        end
    | (Raise e, p') =>
        match final p' with
        | (Value _, p'') => (Raise e, p'')
        | (Raise e', p'') => (Raise e', p'')
        | (Exited, p'') => (Exited, p'')
        | (Parked, p'') => (Parked, p'')
        end
    | (Exited, p') => (Exited, p')
    | (Parked, p') => (Parked, p')
    end.

(** The process after it made [calls]. *)
Definition emit (calls : list Action) (p : Proc) : Proc :=
  {| serverInstance := serverInstance p; shuttingDown := shuttingDown p;
     app_pc := app_pc p; race := race p; awaiting_stop := awaiting_stop p;
     trace := trace p ++ calls; exit_code := exit_code p |}.

Definition act (a : Action) : M unit := fun p => (Value tt, emit [a] p).

(** [process.exit(code)] *)
Definition process_exit {A} (code : Z) : M A :=
  fun p => (Exited,
            {| serverInstance := serverInstance p; shuttingDown := shuttingDown p;
               app_pc := app_pc p; race := race p; awaiting_stop := awaiting_stop p;
               trace := trace p ++ [ProcessExit code]; exit_code := Some code |}).

Definition console_log (line : list Printed) : M unit := act (ConsoleLog line).
Definition console_error (line : list Printed) : M unit := act (ConsoleError line).

Definition get_serverInstance : M (option ServerModule) := fun p => (Value (serverInstance p), p).
Definition get_shuttingDown : M bool := fun p => (Value (shuttingDown p), p).

Definition set_serverInstance (s : ServerModule) : M unit :=
  fun p => (Value tt,
            {| serverInstance := Some s; shuttingDown := shuttingDown p;
               app_pc := app_pc p; race := race p; awaiting_stop := awaiting_stop p;
               trace := trace p; exit_code := exit_code p |}).

Definition set_shuttingDown (b : bool) : M unit :=
  fun p => (Value tt,
            {| serverInstance := serverInstance p; shuttingDown := b;
               app_pc := app_pc p; race := race p; awaiting_stop := awaiting_stop p;
               trace := trace p; exit_code := exit_code p |}).

Definition set_app_pc (pc : AppPc) : M unit :=
  fun p => (Value tt,
            {| serverInstance := serverInstance p; shuttingDown := shuttingDown p;
               app_pc := pc; race := race p; awaiting_stop := awaiting_stop p;
               trace := trace p; exit_code := exit_code p |}).

Definition set_race (r : option Race) : M unit :=
  fun p => (Value tt,
            {| serverInstance := serverInstance p; shuttingDown := shuttingDown p;
               app_pc := app_pc p; race := r; awaiting_stop := awaiting_stop p;
               trace := trace p; exit_code := exit_code p |}).

Definition set_awaiting_stop (b : bool) : M unit :=
  fun p => (Value tt,
            {| serverInstance := serverInstance p; shuttingDown := shuttingDown p;
               app_pc := app_pc p; race := race p; awaiting_stop := b;
               trace := trace p; exit_code := exit_code p |}).

(** A value or a thrown error, inside [M]. *)
Definition lift {A} (r : A + Thrown) : M A :=
  match r with
  | inl a => ret a
  | inr e => raise e
  end.

(** ** The script *)

(** [StartupResult]: what [runOptionalAuditCheck] returns. *)
Record StartupResult := mkStartupResult {
  ok : bool;
  msg : string;                 (* the property [message] *)
  details : option string
}.

Section Script.

Variable h : Host.

(** [process.env.X === 'true'] *)
Definition env_is_true (var : string) : bool :=
  bool_decide (env h !! var = Some "true").

(** Line 41:
    [(audit.metadata && (audit.metadata.vulnerabilities &&
       Object.values(audit.metadata.vulnerabilities).reduce((a, b) => a + b, 0))) || 0] *)
Definition totalVulns_of (audit : Json) : Total + Thrown :=
  match get_prop audit "metadata" with
  | inr e => inr e
  | inl None => inl (TNum 0)
  | inl (Some metadata) =>
      if negb (truthy metadata) then inl (TNum 0)
      else
        match get_prop metadata "vulnerabilities" with
        | inr e => inr e
        | inl None => inl (TNum 0)
        | inl (Some vulnerabilities) =>
            if negb (truthy vulnerabilities) then inl (TNum 0)
            else
              match Array_reduce (js_add h) (Object_values vulnerabilities) (TNum 0) with
              | inr e => inr e
              | inl sum => inl (if Total_truthy sum then sum else TNum 0)
              end
        end
  end.

(** Lines 20-51. *)
Definition runOptionalAuditCheck : M StartupResult :=
  try_catch
    (if negb (env_is_true "ENFORCE_AUDIT")
     then ret (mkStartupResult true "audit skipped" None)
     else
       act (SpawnSync "npm" ["audit"; "--json"; "--production"]) ;;
       let res := npm_audit h in
       match error res with
       | Some e => ret (mkStartupResult false "Failed to execute npm audit" (Some (message e)))
       | None =>
           match stdout res with
           | None | Some EmptyString => ret (mkStartupResult true "no audit output" None)
           | Some text =>
               act (JsonParse text) ;;
               let* audit := lift (JSON_parse h text) in
               let* totalVulns := lift (totalVulns_of audit) in
               if greater_than_zero h totalVulns
               then ret (mkStartupResult false
                           ("npm audit found " +:+ Total_toString h totalVulns +:+ " vulnerabilities")
                           None)
               else ret (mkStartupResult true "npm audit passed" None)
           end
       end)
    (fun err => ret (mkStartupResult false "audit check failed" (Some (String_of err)))).

(** Lines 53-61. *)
Definition niceErrorLog (err : Thrown) : M unit :=
  console_error [Text "[STARTUP ERROR]"; Text (message_or_string err)] ;;
  if env_is_true "DEBUG"
  then console_error [match err with ErrorObj _ => StackOf err | NonError _ => Text "" end]
  else console_error [Text "Set DEBUG=true to see stack trace."].

(** [Promise.race([startPromise, timeoutPromise])] once the two are known:
    the first to settle decides. *)
Definition first_settled (r : Race) (s : Settlement) : Promise :=
  match raced r with
  | Unsettled => Settled s
  | Settled s0 => Settled s0
  end.

(** The promise [start()] returned settles. *)
Definition settle_start (s : Settlement) (r : Race) : Race :=
  match startPromise r with
  | Unsettled => mkRace (Settled s) (timeoutPromise r) (first_settled r s)
  | Settled _ => r
  end.

Definition timed_out : Thrown := Error "Server start timed out".

(** The timer of line 69 expires: [reject(new Error('Server start timed out'))]. *)
Definition fire_timer (r : Race) : Race :=
  match timeoutPromise r with
  | Unsettled => mkRace (startPromise r) (Settled (Rejected timed_out))
                        (first_settled r (Rejected timed_out))
  | Settled _ => r
  end.

(** Lines 66-72.  A throw inside the async function is the rejection of
    the promise it returns; otherwise it returns the race, both contenders
    pending.  [timeoutMs = None] is an omitted argument. *)
Definition startServerWithTimeout (serverModule : ServerModule) (timeoutMs : option JsNumber)
  : M Race :=
  let timeoutMs := match timeoutMs with Some ms => ms | None => Num 30000 end in
  match start serverModule with
  | Absent | NotCallable => raise (TypeError "serverModule.start is not a function")
  | Function body =>
      act CallStart ;;
      match body with
      | Throws e => raise e
      | Returns =>
          act (SetTimeout timeoutMs) ;;
          ret (mkRace Unsettled Unsettled Unsettled)
      end
  end.

(** [a || b] on module members. *)
Definition member_or (a b : Member) : Member :=
  match a with
  | Absent => b
  | _ => a
  end.

(** Lines 74-83, up to [await import(validatePath)]. *)
Definition app_begin : M unit :=
  let* auditResult := runOptionalAuditCheck in
  if negb (ok auditResult)
  then raise (Error ("Startup blocked: " +:+ msg auditResult))
  else
    act (Import validateDependenciesBasic_js) ;;
    set_app_pc AwaitValidatorImport ;;
    park.

(** Lines 83-88, from the settled import up to [await validateDependencies()].
    [None] is a rejected import: the [catch] callback replaces its reason.
    The last operand of line 86 is the namespace object itself, which is
    truthy and cannot be called. *)
Definition app_validator_imported (imported : option ValidatorModule) : M unit :=
  match imported with
  | None => raise (Error "Failed to load dependency validator")
  | Some validateModule =>
      let validateDependencies :=
        member_or (default validateModule)
          (member_or (validateDependencies validateModule) NotCallable) in
      match validateDependencies with
      | Absent | NotCallable => raise (TypeError "validateDependencies is not a function")
      | Function body =>
          act CallValidate ;;
          match body with
          | Throws e => raise e
          | Returns => set_app_pc AwaitValidator ;; park
          end
      end
  end.

(** Lines 88-93, from the settled validation up to [await import('./server.js')]. *)
Definition app_validated (s : Settlement) : M unit :=
  match s with
  | Rejected e => raise e
  | Fulfilled =>
      act (Import server_js) ;;
      set_app_pc AwaitServerImport ;;
      park
  end.

(** Line 96: [Number(process.env.STARTUP_TIMEOUT_MS) || 30000] *)
Definition startup_timeout : JsNumber :=
  number_or (Number_of_env h "STARTUP_TIMEOUT_MS") 30000.

(** Lines 91-96, from the settled import up to
    [await startServerWithTimeout(server, ...)]. *)
Definition app_server_imported (imported : option ServerModule) : M unit :=
  match imported with
  | None => raise (Error "Failed to load server module")
  | Some server =>
      let* r := startServerWithTimeout server (Some startup_timeout) in
      set_race (Some r) ;;
      set_app_pc (AwaitStart server) ;;
      park
  end.

(** Lines 96-99, from the settled race to the end of [app]. *)
Definition app_started (server : ServerModule) (s : Settlement) : M unit :=
  match s with
  | Rejected e => raise e
  | Fulfilled =>
      set_serverInstance server ;;
      console_log [Text "[SERVER] started"] ;;
      set_app_pc AppFulfilled
  end.

(** Lines 140-145: [app().catch(err => { niceErrorLog(err); process.exit(1) })],
    around whichever stretch of [app] is running. *)
Definition top_level (stretch : M unit) : M unit :=
  try_catch stretch
    (fun err =>
       set_app_pc (AppRejected err) ;;
       niceErrorLog err ;;
       process_exit 1).

(** Lines 102-108. *)
Definition on_unhandledRejection (reason : Thrown) : M unit :=
  console_error [Text "[UNHANDLED REJECTION]"; Text (String_of reason)] ;;
  if env_is_true "CRASH_ON_UNHANDLED_REJECTION"
  then process_exit 1
  else ret tt.

(** Lines 110-117. *)
Definition on_uncaughtException (err : Thrown) : M unit :=
  console_error [Text "[UNCAUGHT EXCEPTION]"; Text (message_or_string err)] ;;
  if env_is_true "CRASH_ON_UNCAUGHT_EXCEPTION"
  then process_exit 1
  else ret tt.

(** Line 130, the [catch] block of [shutdown]. *)
Definition shutdown_catch (err : Thrown) : M unit :=
  console_error [Text "[SHUTDOWN ERROR]"; Text (message_or_string err)].

(** Lines 120-134, up to [await serverInstance.stop()] when it is reached. *)
Definition shutdown (signal : SignalName) : M unit :=
  let* busy := get_shuttingDown in
  if busy then ret tt
  else
    set_shuttingDown true ;;
    console_log [Text ("[SHUTDOWN] Received " +:+ SignalName_text signal
                       +:+ ", shutting down gracefully...")] ;;
    try_finally
      (try_catch
         (let* instance := get_serverInstance in
          match instance with
          | None => ret tt
          | Some server =>
              match stop server with
              | Absent | NotCallable => ret tt
              | Function body =>
                  act CallStop ;;
                  match body with
                  | Throws e => raise e
                  | Returns => set_awaiting_stop true ;; park
                  end
              end
          end)
         shutdown_catch)
      (process_exit 0).

(** Lines 126-133, from the settled [stop()] on: the [await] throws a
    rejection inside the [try]. *)
Definition shutdown_resume (s : Settlement) : M unit :=
  set_awaiting_stop false ;;
  try_finally
    (try_catch
       (match s with
        | Rejected e => raise e
        | Fulfilled => console_log [Text "[SHUTDOWN] server.stop() completed"]
        end)
       shutdown_catch)
    (process_exit 0).

(** ** The event loop *)

(** What the host delivers to the script, one at a time. *)
Inductive Stimulus :=
| ValidatorImported (imported : option ValidatorModule)
| ValidatorSettled (s : Settlement)
| ServerImported (imported : option ServerModule)
| StartSettled (s : Settlement)
| TimerFired
| StopSettled (s : Settlement)
| Signal (sig : SignalName)
| UnhandledRejection (reason : Thrown)
| UncaughtException (err : Thrown).

(** A promise nobody handles: its rejection reaches the
    [unhandledRejection] listener. *)
Definition detached (m : M unit) : M unit :=
  try_catch m on_unhandledRejection.

Definition run (m : M unit) (p : Proc) : Proc := snd (m p).

(** The race moves to [r']; [app] resumes when that settles it. *)
Definition race_moved (r r' : Race) (p : Proc) : Proc :=
  let p' := run (set_race (Some r')) p in
  match app_pc p, raced r, raced r' with
  | AwaitStart server, Unsettled, Settled outcome =>
      run (detached (top_level (app_started server outcome))) p'
  | _, _, _ => p'
  end.

Definition step (p : Proc) (s : Stimulus) : Proc :=
  if negb (alive p) then p
  else
    match s with
    | ValidatorImported imported =>
        match app_pc p with
        | AwaitValidatorImport => run (detached (top_level (app_validator_imported imported))) p
        | _ => p
        end
    | ValidatorSettled s =>
        match app_pc p with
        | AwaitValidator => run (detached (top_level (app_validated s))) p
        | _ => p
        end
    | ServerImported imported =>
        match app_pc p with
        | AwaitServerImport => run (detached (top_level (app_server_imported imported))) p
        | _ => p
        end
    | StartSettled s =>
        match race p with
        | Some r => race_moved r (settle_start s r) p
        | None => p
        end
    | TimerFired =>
        match race p with
        | Some r => race_moved r (fire_timer r) p
        | None => p
        end
    | StopSettled s =>
        if awaiting_stop p then run (detached (shutdown_resume s)) p else p
    | Signal sig => run (detached (shutdown sig)) p       (* lines 136-137 *)
    | UnhandledRejection reason => run (on_unhandledRejection reason) p
    | UncaughtException err => run (on_uncaughtException err) p
    end.

(** The process once the module body has run: listeners installed, [app()]
    called and parked at its first [await] (or already failed). *)
Definition boot : Proc := run (detached (top_level app_begin)) fresh.

Definition steps (p : Proc) (stimuli : list Stimulus) : Proc :=
  fold_left step stimuli p.

End Script.

(** ** Sample hosts and collaborators, for the examples *)

(** A conversion that is exact on an optional minus sign followed by decimal
    digits and answers [NaN] on every other text (the host's conversion
    also reads blanks, fractions, exponents and radix prefixes). *)
Definition decimal_number (s : string) : JsNumber :=
  match NilZero.int_of_string s with
  | Some d => Num (Z.of_int d)
  | None => NaN
  end.

(** The double nearest to an integer of magnitude below 2^63. *)
Definition double_of_Z (z : Z) : float :=
  match z with
  | Z0 => 0%float
  | Zpos _ => PrimFloat.of_uint63 (Uint63.of_Z z)
  | Zneg p => PrimFloat.opp (PrimFloat.of_uint63 (Uint63.of_Z (Zpos p)))
  end.

(** The same conversion as [decimal_number], to a double. *)
Definition decimal_double (s : string) : float :=
  match decimal_number s with
  | Num z => double_of_Z z
  | NaN => PrimFloat.nan
  end.

(** The text of a double: the decimal digits of its integer part.  This is
    the host's text for the integers of magnitude below 2^53, for [NaN] and
    for the infinities (the host prints the fraction of other doubles, and
    the shortest digits that read back as the same double). *)
Definition integer_text (x : float) : string :=
  match Prim2SF x with
  | S754_zero _ => "0"
  | S754_infinity false => "Infinity"
  | S754_infinity true => "-Infinity"
  | S754_nan => "NaN"
  | S754_finite sign m e =>
      (if sign then "-" else "")
      +:+ pretty (if 0 <=? e then Z.pos m * 2 ^ e else Z.pos m / 2 ^ (- e))
  end.

(** A parser for the scalar texts [null], [true], [false] and integers; every
    other text is refused with a SyntaxError (the host's parser reads all
    of JSON). *)
Definition parse_scalar (text : string) : Json + Thrown :=
  if decide (text = "null") then inl JNull
  else if decide (text = "true") then inl (JBool true)
  else if decide (text = "false") then inl (JBool false)
  else match decimal_number text with
       | Num z => inl (JNumber (double_of_Z z))
       | NaN => inr (ErrorObj (mkJsError "SyntaxError" "Unexpected token"))
       end.

Definition sample_host (vars : list (string * string)) (audit : SpawnResult) : Host :=
  mkHost (list_to_map vars) audit parse_scalar decimal_number decimal_double integer_text.

Definition sample_server : ServerModule := mkServerModule (Function Returns) (Function Returns).
Definition sample_validator : ValidatorModule := mkValidatorModule (Function Returns) Absent.

(** A host with an empty environment, and the process on it once the
    sample server has started. *)
Definition quiet_host : Host := sample_host [] (mkSpawnResult None None).

Definition running : Proc :=
  steps quiet_host (boot quiet_host)
    [ValidatorImported (Some sample_validator); ValidatorSettled Fulfilled;
     ServerImported (Some sample_server); StartSettled Fulfilled].

(** An audit tool that ran and printed the four characters of [null]. *)
Definition host_null_document : Host :=
  sample_host [("ENFORCE_AUDIT", "true")] (mkSpawnResult None (Some "null")).

(** ** Notions the statements below use *)

(** *** The summed vulnerability count

    What the specification calls the summed vulnerability count, written
    without reference to the script: the counts a report carries, which of
    them can be added at all, and what adding them up from 0 gives. *)

(** The counts of a report: the values of [metadata.vulnerabilities] in the
    order of the report.  A report that is no object, or has no [metadata]
    object with that property, carries none. *)
Definition reported_counts (doc : Json) : list Json :=
  match doc with
  | JObject props =>
      match assoc "metadata" props with
      | Some (JObject mprops) =>
          match assoc "vulnerabilities" mprops with
          | Some vulnerabilities => Object_values vulnerabilities
          | None => []
          end
      | _ => []
      end
  | _ => []
  end.

(** A count that has no text and so cannot be added: an object with a
    property [toString] of its own, or an array that holds such a count. *)
Fixpoint unprintable (v : Json) : bool :=
  match v with
  | JObject props => existsb (fun kv => String.eqb kv.1 "toString") props
  | JArray items => existsb unprintable items
  | _ => false
  end.

(** A count that is added as a number: a number, [true] as 1, [false] and
    [null] as 0. *)
Definition numeric_count (c : Json) : option float :=
  match c with
  | JNumber x => Some x
  | JBool b => Some (if b then 1%float else 0%float)
  | JNull => Some 0%float
  | _ => None
  end.

(** The counts before the first that is no number, as numbers, and the
    counts from that one on. *)
Fixpoint numeric_prefix (counts : list Json) : list float * list Json :=
  match counts with
  | [] => ([], [])
  | c :: rest =>
      match numeric_count c with
      | Some x => let '(xs, others) := numeric_prefix rest in (x :: xs, others)
      | None => ([], counts)
      end
  end.

(** The sum of doubles, taken from 0 in the order of the list (the
    addition of doubles rounds, so the order matters). *)
Definition double_sum (xs : list float) : float := fold_left PrimFloat.add xs 0%float.

(** The text of a count that has one: a scalar prints as JSON writes it
    (a string without its quotes), an array as the texts of its items with
    commas in between, [null] items left empty, and an object as the fixed
    text of [Object.prototype.toString]. *)
Fixpoint text_of (h : Host) (c : Json) : string :=
  match c with
  | JNull => "null"
  | JBool b => if b then "true" else "false"
  | JNumber x => Number_toString h x
  | JString s => s
  | JArray items =>
      String.concat ","
        ((fun item => match item with JNull => "" | _ => text_of h item end) <$> items)
  | JObject _ => "[object Object]"
  end.

Definition texts_of (h : Host) (counts : list Json) : string :=
  foldr (fun c rest => text_of h c +:+ rest) "" counts.

(** The counts added up: the sum of the numbers when all are numbers;
    otherwise the text of the sum of the numbers that come first, followed
    by the texts of all the others. *)
Definition summed_count (h : Host) (counts : list Json) : Total :=
  match numeric_prefix counts with
  | (xs, []) => TNum (double_sum xs)
  | (xs, others) => TStr (Number_toString h (double_sum xs) +:+ texts_of h others)
  end.

(** Whether a total is greater than 0.  A text is compared through the
    number it reads as, and the empty text reads as 0. *)
Definition exceeds_zero (h : Host) (t : Total) : bool :=
  match t with
  | TNum x => PrimFloat.ltb 0 x
  | TStr EmptyString => false
  | TStr s => PrimFloat.ltb 0 (StringToDouble h s)
  end.

Section AuditGrounds.

Variable h : Host.

(** The tool printed a non-empty text that parsed to [doc]. *)
Definition reports (doc : Json) : Prop :=
  exists text, stdout (npm_audit h) = Some text /\ text <> "" /\ JSON_parse h text = inl doc.

(** The three grounds the specification lists for a failed audit, each
    read in its most favourable sense: the parse is one that was attempted
    (the output is not empty), the count is the sum of the counts the report
    carries. *)
Definition tool_failed : Prop := is_Some (error (npm_audit h)).

Definition parse_failed : Prop :=
  exists text e, stdout (npm_audit h) = Some text /\ text <> "" /\ JSON_parse h text = inr e.

Definition count_positive : Prop :=
  exists doc, reports doc /\ exceeds_zero h (summed_count h (reported_counts doc)) = true.

(** Two more grounds: the parsed output is the document [null], whose
    [metadata] cannot be read; or one of the counts cannot be added. *)
Definition document_is_null : Prop := reports JNull.

Definition count_unprintable : Prop :=
  exists doc c, reports doc /\ c ∈ reported_counts doc /\ unprintable c = true.

(** C4 as the specification states it. *)
Definition audit_fails_exactly_on_listed_grounds : Prop :=
  env h !! "ENFORCE_AUDIT" = Some "true" ->
  forall p, exists r p',
    runOptionalAuditCheck h p = (Value r, p') /\
    (ok r = false <-> tool_failed \/ parse_failed \/ count_positive).

End AuditGrounds.

(** What can happen to the two contenders of the race. *)
Inductive RaceEvent :=
| StartSettles (s : Settlement)
| TimerFires.

Definition race_on (r : Race) (ev : RaceEvent) : Race :=
  match ev with
  | StartSettles s => settle_start s r
  | TimerFires => fire_timer r
  end.

Definition race_after (r : Race) (history : list RaceEvent) : Race :=
  fold_left race_on history r.

(** The race as [startServerWithTimeout] returns it. *)
Definition pending_race : Race := mkRace Unsettled Unsettled Unsettled.

(** C1 as the specification states it: the call resolves successfully
    exactly when [start()] settles before the timer fires. *)
Definition resolves_iff_start_settles_first : Prop :=
  forall serverModule timeoutMs p r p',
    startServerWithTimeout serverModule timeoutMs p = (Value r, p') ->
    forall history,
      raced (race_after r history) = Settled Fulfilled
      <-> exists s rest, history = StartSettles s :: rest.

#[global] Instance Printed_eq_dec : EqDecision Printed.
Proof. solve_decision. Defined.

#[global] Instance ModulePath_eq_dec : EqDecision ModulePath.
Proof. solve_decision. Defined.

#[global] Instance Action_eq_dec : EqDecision Action.
Proof. solve_decision. Defined.

(** The calls of the bootstrap steps, as opposed to error output, exits
    and what [shutdown] does. *)
Definition is_bootstrap_action (a : Action) : bool :=
  match a with
  | SpawnSync _ _ | JsonParse _ | Import _ | CallValidate | CallStart | SetTimeout _ => true
  | ConsoleLog line => bool_decide (line = [Text "[SERVER] started"])
  | CallStop | ConsoleError _ | ProcessExit _ => false
  end.

Definition is_stop_call (a : Action) : bool :=
  match a with
  | CallStop => true
  | _ => false
  end.

(** How often [stop()] was called. *)
Definition stop_calls (t : list Action) : nat := length (List.filter is_stop_call t).

Section Bootstrap.

Variable h : Host.

(** The calls of the audit step. *)
Definition audit_calls : list Action :=
  if env_is_true h "ENFORCE_AUDIT"
  then SpawnSync "npm" ["audit"; "--json"; "--production"]
       :: match error (npm_audit h), stdout (npm_audit h) with
          | None, Some (String c text) => [JsonParse (String c text)]
          | _, _ => []
          end
  else [].

(** The calls of the steps after the audit, in the order of [app]:
    validator module load, validator execution, server module load, timed
    server start (two calls), handle recorded and announced. *)
Definition steps_after_audit : list Action :=
  [Import validateDependenciesBasic_js; CallValidate; Import server_js;
   CallStart; SetTimeout (startup_timeout h); ConsoleLog [Text "[SERVER] started"]].

Definition bootstrap_script : list Action := (audit_calls ++ steps_after_audit).

(** How many of [steps_after_audit] are behind [app] at each [await]. *)
Definition progress (pc : AppPc) : nat :=
  match pc with
  | NotCalled | AppRejected _ => 0
  | AwaitValidatorImport => 1
  | AwaitValidator => 2
  | AwaitServerImport => 3
  | AwaitStart _ => 5
  | AppFulfilled => 6
  end.

(** What [niceErrorLog(err)] prints. *)
Definition error_log (err : Thrown) : list Action := trace (run (niceErrorLog h err) fresh).

(** The process after the [catch] of lines 141-145 ran on [err]. *)
Definition failed_with (err : Thrown) (p : Proc) : Proc :=
  run (set_app_pc (AppRejected err) ;; niceErrorLog h err ;; process_exit 1) p.

(** The bootstrap failures that arrive as a stimulus: the calls the failing
    step still made, and the error it fails with. *)
Definition failure (p : Proc) (s : Stimulus) : option (list Action * Thrown) :=
  match app_pc p, s with
  | AwaitValidatorImport, ValidatorImported None =>
      Some ([], Error "Failed to load dependency validator")
  | AwaitValidatorImport, ValidatorImported (Some validateModule) =>
      match member_or (default validateModule)
              (member_or (validateDependencies validateModule) NotCallable) with
      | Function (Throws e) => Some ([CallValidate], e)
      | Function Returns => None
      | Absent | NotCallable => Some ([], TypeError "validateDependencies is not a function")
      end
  | AwaitValidator, ValidatorSettled (Rejected e) => Some ([], e)
  | AwaitServerImport, ServerImported None => Some ([], Error "Failed to load server module")
  | AwaitServerImport, ServerImported (Some server) =>
      match start server with
      | Function (Throws e) => Some ([CallStart], e)
      | Function Returns => None
      | Absent | NotCallable => Some ([], TypeError "serverModule.start is not a function")
      end
  | AwaitStart _, StartSettled (Rejected e) =>
      match race p with
      | Some r => match startPromise r, raced r with
                  | Unsettled, Unsettled => Some ([], e)
                  | _, _ => None
                  end
      | None => None
      end
  | AwaitStart _, TimerFired =>
      match race p with
      | Some r => match timeoutPromise r, raced r with
                  | Unsettled, Unsettled => Some ([], timed_out)
                  | _, _ => None
                  end
      | None => None
      end
  | _, _ => None
  end.


(** What holds of the module-level state in every process the event loop
    can reach. *)
Record consistent (p : Proc) : Prop := mkConsistent {
  pc_state :
    match app_pc p with
    | NotCalled => False
    | AwaitValidatorImport | AwaitValidator | AwaitServerImport =>
        serverInstance p = None /\ race p = None
    | AwaitStart _ => serverInstance p = None /\ race p = Some pending_race
    | AppFulfilled =>
        is_Some (serverInstance p) /\ exists r, race p = Some r /\ raced r = Settled Fulfilled
    | AppRejected _ => serverInstance p = None /\ exit_code p = Some 1
    end;
  exit_zero_shutting_down : exit_code p = Some 0 -> shuttingDown p = true;
  idle_not_awaiting : shuttingDown p = false -> awaiting_stop p = false;
  shutting_down_alive :
    shuttingDown p = true -> exit_code p = None ->
    awaiting_stop p = true /\ is_Some (serverInstance p)
}.

(** What holds of the calls made so far. *)
Record orderly (p : Proc) : Prop := mkOrderly {
  bootstrap_in_order :
    match app_pc p with
    | NotCalled => False
    | AppRejected _ => List.filter is_bootstrap_action (trace p) `prefix_of` bootstrap_script
    | pc => List.filter is_bootstrap_action (trace p)
            = (audit_calls ++ take (progress pc) steps_after_audit)
    end;
  stop_needs_shutdown : shuttingDown p = false -> stop_calls (trace p) = 0%nat;
  stop_at_most_once : (stop_calls (trace p) <= 1)%nat
}.

End Bootstrap.

(** *** How the process ends

    Node ends a process whose event loop has run empty, with status 0 and
    without a call of [process.exit].  An unsettled promise does not keep the
    loop busy, and neither do the listeners for signals and faults. *)

(** The timer of line 69 is armed and has not fired (it is never cleared). *)
Definition timer_armed (p : Proc) : bool :=
  match race p with
  | Some r => match timeoutPromise r with Unsettled => true | Settled _ => false end
  | None => false
  end.

(** What the script itself keeps in the event loop: a module import in
    flight, and the armed timer. *)
Definition script_pending (p : Proc) : bool :=
  match app_pc p with
  | AwaitValidatorImport | AwaitServerImport => true
  | _ => false
  end || timer_armed p.

(** The status the process has ended with, if it has ended: the code
    passed to [process.exit], or 0 once the event loop is empty.
    [collaborators_pending] tells whether the validator or the server have
    left work of their own in the loop (a listening socket, a timer). *)
Definition end_status (collaborators_pending : bool) (p : Proc) : option Z :=
  match exit_code p with
  | Some code => Some code
  | None => if collaborators_pending || script_pending p then None else Some 0
  end.


(** The first line [shutdown] prints. *)
Definition shutdown_notice (sig : SignalName) : Action :=
  ConsoleLog [Text ("[SHUTDOWN] Received " +:+ SignalName_text sig
                    +:+ ", shutting down gracefully...")].

(** What [shutdown] prints for the way [stop()] settled. *)
Definition stop_report (s : Settlement) : Action :=
  match s with
  | Fulfilled => ConsoleLog [Text "[SHUTDOWN] server.stop() completed"]
  | Rejected e => ConsoleError [Text "[SHUTDOWN ERROR]"; Text (message_or_string e)]
  end.

(** ** Notions for further properties of the script *)

(** An object whose members are all numbers, as [npm audit] prints the
    counts by severity. *)
Definition counts_object (counts : list (string * float)) : Json :=
  JObject ((fun kc => (kc.1, JNumber kc.2)) <$> counts).

(** A report whose [metadata.vulnerabilities] holds [counts]. *)
Definition report_of (counts : Json) : Json :=
  JObject [("auditReportVersion", JNumber 2); ("metadata", JObject [("vulnerabilities", counts)])].

(** The documents in which the script finds nothing to add up: anything
    but [null] that is no object, an object without [metadata], and an
    object whose [metadata] is an object without [vulnerabilities] or with an
    empty one. *)
Definition no_counts (doc : Json) : Prop :=
  match doc with
  | JNull => False
  | JObject props =>
      match assoc "metadata" props with
      | None => True
      | Some (JObject mprops) =>
          assoc "vulnerabilities" mprops = None \/
          assoc "vulnerabilities" mprops = Some (JObject [])
      | Some _ => False
      end
  | _ => True
  end.

(** A host whose audit tool printed a report that parses to [doc]. *)
Definition host_reporting (doc : Json) : Host :=
  mkHost (list_to_map [("ENFORCE_AUDIT", "true")])
         (mkSpawnResult None (Some "<the report of npm audit>"))
         (fun _ => inl doc) decimal_number decimal_double integer_text.

(** A console call that prints the stack of an error. *)
Definition prints_stack (a : Action) : bool :=
  match a with
  | ConsoleLog line | ConsoleError line =>
      existsb (fun x => match x with StackOf _ => true | Text _ => false end) line
  | _ => false
  end.

(** Why a process may have exited with 1. *)
Definition exit_one_explained (h : Host) (p : Proc) : Prop :=
  (exists err, app_pc p = AppRejected err) \/
  env_is_true h "CRASH_ON_UNHANDLED_REJECTION" = true \/
  env_is_true h "CRASH_ON_UNCAUGHT_EXCEPTION" = true.

(** How many of the calls in [t] satisfy [f]. *)
Definition calls (f : Action -> bool) (t : list Action) : nat := length (List.filter f t).

Definition is_start_call (a : Action) : bool :=
  match a with CallStart => true | _ => false end.

Definition is_validate_call (a : Action) : bool :=
  match a with CallValidate => true | _ => false end.

Definition is_timer (a : Action) : bool :=
  match a with SetTimeout _ => true | _ => false end.

Definition is_spawn (a : Action) : bool :=
  match a with SpawnSync _ _ => true | _ => false end.

Definition is_import (path : ModulePath) (a : Action) : bool :=
  match a with Import path' => bool_decide (path' = path) | _ => false end.

(** * Proofs *)

(** ** Doubles and texts *)

(** A number that counts as false is not greater than 0. *)
Lemma number_falsy_not_positive (x : float) :
  number_falsy x = true -> PrimFloat.ltb 0 x = false.
Proof.
  unfold number_falsy, PrimFloat.is_nan. rewrite ltb_spec, !eqb_spec.
  change (Prim2SF 0) with (S754_zero false).
  destruct (Prim2SF x) as [sign | sign | | sign m e]; simpl; try done.
  - by destruct sign.
  - unfold SFeqb, SFltb, SFcompare.
    destruct sign; rewrite Z.compare_refl, Pos.compare_cont_refl; done.
Qed.

Lemma zero_is_falsy : number_falsy 0 = true.
Proof. reflexivity. Qed.

Lemma zero_not_positive : PrimFloat.ltb 0 0 = false.
Proof. reflexivity. Qed.

Lemma append_assoc (s t u : string) : (s +:+ t) +:+ u = s +:+ (t +:+ u).
Proof.
  induction s as [|c s IH]; [done|].
  change (String c ((s +:+ t) +:+ u) = String c (s +:+ (t +:+ u))). by rewrite IH.
Qed.

Lemma append_empty (s : string) : s +:+ "" = s.
Proof.
  induction s as [|c s IH]; [done|].
  change (String c (s +:+ "") = String c s). by rewrite IH.
Qed.

(** Induction on a JSON value, with the hypothesis for every item of an
    array. *)
Lemma Json_nested_ind (P : Json -> Prop) :
  P JNull -> (forall b, P (JBool b)) -> (forall x, P (JNumber x)) -> (forall s, P (JString s)) ->
  (forall items, Forall P items -> P (JArray items)) ->
  (forall props, P (JObject props)) ->
  forall v, P v.
Proof.
  intros Hnull Hbool Hnum Hstr Harr Hobj.
  fix IH 1. intros [| b | x | s | items | props];
    [exact Hnull | apply Hbool | apply Hnum | apply Hstr | | apply Hobj].
  apply Harr. induction items as [|item items IHitems]; constructor; [apply IH | exact IHitems].
Qed.

Lemma null_or_not (doc : Json) : doc = JNull \/ doc <> JNull.
Proof. destruct doc; first [by left | by right]. Qed.

Section Printing.

Variable h : Host.

Lemma own_toString (props : list (string * Json)) :
  existsb (fun kv => String.eqb kv.1 "toString") props = true
  <-> is_Some (assoc "toString" props).
Proof.
  induction props as [|[k v] props IH]; simpl.
  - split; [done | by intros [x Hx]].
  - destruct (decide (k = "toString")) as [-> | Hk].
    + split; [eauto | done].
    + apply String.eqb_neq in Hk. rewrite Hk. exact IH.
Qed.

(** A value has a text exactly when it is not [unprintable], and the
    conversion of one that is throws the TypeError of [cannot_convert]. *)
Lemma Json_toString_spec (v : Json) :
  if unprintable v
  then Json_toString h v = inr cannot_convert
  else Json_toString h v = inl (text_of h v).
Proof.
  induction v as [| [] | x | s | items IH | props] using Json_nested_ind; try reflexivity.
  - cbn [unprintable Json_toString text_of].
    induction IH as [|item items Hitem _ IHitems]; [reflexivity|].
    rewrite fmap_cons. cbn [existsb].
    destruct (unprintable item) eqn:Hun; cbn [orb].
    + destruct item; try discriminate; by rewrite Hitem.
    + assert (Hhere : match item with JNull => inl "" | _ => Json_toString h item end
                      = inl (match item with JNull => "" | _ => text_of h item end)
                        :> string + Thrown)
        by (by destruct item).
      rewrite Hhere. clear Hhere Hitem.
      destruct items as [|next items]; [reflexivity|].
      destruct (existsb unprintable (next :: items)); by rewrite IHitems.
  - cbn [unprintable Json_toString text_of].
    destruct (existsb _ props) eqn:Hown.
    + apply own_toString in Hown as [x ->]. done.
    + destruct (assoc "toString" props) eqn:Hassoc; [|done].
      assert (is_Some (assoc "toString" props)) as Hsome by eauto.
      apply own_toString in Hsome. congruence.
Qed.

Lemma Json_toString_unprintable (v : Json) :
  unprintable v = true -> Json_toString h v = inr cannot_convert.
Proof. intros Hun. pose proof (Json_toString_spec v) as H. by rewrite Hun in H. Qed.

Lemma Json_toString_printable (v : Json) :
  unprintable v = false -> Json_toString h v = inl (text_of h v).
Proof. intros Hun. pose proof (Json_toString_spec v) as H. by rewrite Hun in H. Qed.

(** [a + b] throws exactly for an unprintable [b]. *)
Lemma js_add_unprintable (a : Total) (b : Json) :
  unprintable b = true -> js_add h a b = inr cannot_convert.
Proof.
  intros Hun. pose proof (Json_toString_unprintable b Hun) as Hthrow.
  unfold js_add. destruct a, b; try discriminate; by rewrite Hthrow.
Qed.

Lemma js_add_printable (a : Total) (b : Json) :
  unprintable b = false ->
  js_add h a b
  = inl match a, numeric_count b with
        | TNum x, Some y => TNum (PrimFloat.add x y)
        | TNum x, None => TStr (Number_toString h x +:+ text_of h b)
        | TStr s, _ => TStr (s +:+ text_of h b)
        end.
Proof.
  intros Hun. pose proof (Json_toString_printable b Hun) as Htext.
  unfold js_add. destruct a as [x | s], b as [| [] | y | t | items | props];
    try reflexivity; by rewrite Htext.
Qed.

Lemma reduce_unprintable (counts : list Json) (a : Total) :
  (exists c, c ∈ counts /\ unprintable c = true) ->
  Array_reduce (js_add h) counts a = inr cannot_convert.
Proof.
  revert a. induction counts as [|b counts IH]; intros a (c & Hin & Hun).
  - by apply elem_of_nil in Hin.
  - cbn [Array_reduce]. destruct (unprintable b) eqn:Hb.
    + by rewrite js_add_unprintable.
    + rewrite js_add_printable by done.
      apply IH. exists c. split; [|done].
      apply elem_of_cons in Hin as [-> | Hin]; [congruence | done].
Qed.

Lemma reduce_texts (counts : list Json) (s : string) :
  (forall c, c ∈ counts -> unprintable c = false) ->
  Array_reduce (js_add h) counts (TStr s) = inl (TStr (s +:+ texts_of h counts)).
Proof.
  revert s. induction counts as [|b counts IH]; intros s Hall; cbn [Array_reduce texts_of foldr].
  - by rewrite append_empty.
  - rewrite js_add_printable by (apply Hall; left).
    rewrite IH by (intros c Hc; apply Hall; by right).
    by rewrite append_assoc.
Qed.

Lemma reduce_numbers (counts : list Json) (x : float) :
  (forall c, c ∈ counts -> unprintable c = false) ->
  Array_reduce (js_add h) counts (TNum x)
  = inl match numeric_prefix counts with
        | (xs, []) => TNum (fold_left PrimFloat.add xs x)
        | (xs, others) => TStr (Number_toString h (fold_left PrimFloat.add xs x)
                                +:+ texts_of h others)
        end.
Proof.
  revert x. induction counts as [|b counts IH]; intros x Hall; [done|].
  cbn [Array_reduce numeric_prefix]. rewrite js_add_printable by (apply Hall; left).
  destruct (numeric_count b) as [y|] eqn:Hb.
  - rewrite IH by (intros c Hc; apply Hall; by right).
    by destruct (numeric_prefix counts) as [xs [|other others]].
  - rewrite reduce_texts by (intros c Hc; apply Hall; by right).
    cbn [fold_left texts_of foldr]. by rewrite append_assoc.
Qed.

(** Adding up the printable counts from 0 gives [summed_count]. *)
Lemma reduce_summed_count (counts : list Json) :
  (forall c, c ∈ counts -> unprintable c = false) ->
  Array_reduce (js_add h) counts (TNum 0) = inl (summed_count h counts).
Proof. intros Hall. by rewrite reduce_numbers. Qed.

(** Line 41 on a parsed report: reading [metadata] of [null] throws, and
    otherwise the counts of the report are added up from 0. *)
Lemma totalVulns_of_report (doc : Json) :
  totalVulns_of h doc
  = match doc with
    | JNull => inr (TypeError "Cannot read properties of null (reading 'metadata')")
    | _ =>
        match Array_reduce (js_add h) (reported_counts doc) (TNum 0) with
        | inr e => inr e
        | inl sum => inl (if Total_truthy sum then sum else TNum 0)
        end
    end.
Proof.
  destruct doc as [| b | x | s | items | props]; try reflexivity.
  unfold totalVulns_of. simpl.
  destruct (assoc "metadata" props) as [metadata|]; [|reflexivity].
  destruct metadata as [| b | x | s | items | mprops]; simpl;
    try reflexivity; try (by repeat case_match).
  destruct (assoc "vulnerabilities" mprops) as [vulnerabilities|]; [|reflexivity].
  destruct (truthy vulnerabilities) eqn:Htruthy; simpl; [reflexivity|].
  by destruct vulnerabilities as [| [] | x | [] | |].
Qed.

(** The comparison of line 43, after the [|| 0] of line 41. *)
Lemma greater_than_zero_total (sum : Total) :
  greater_than_zero h (if Total_truthy sum then sum else TNum 0) = exceeds_zero h sum.
Proof.
  destruct sum as [x | [|c s]]; simpl; try reflexivity.
  destruct (number_falsy x) eqn:Hx; simpl; [|reflexivity].
  by rewrite number_falsy_not_positive.
Qed.

Lemma exceeds_zero_truthy (sum : Total) :
  exceeds_zero h sum = true -> Total_truthy sum = true.
Proof.
  destruct sum as [x | [|c s]]; simpl; try done.
  intros Hpos. destruct (number_falsy x) eqn:Hx; [|done].
  apply number_falsy_not_positive in Hx. congruence.
Qed.

End Printing.

(** ** The audit check *)

Section Audit.

Variable h : Host.

Lemma env_is_true_spec (var : string) :
  env_is_true h var = true <-> env h !! var = Some "true".
Proof. unfold env_is_true. apply bool_decide_eq_true. Qed.

Lemma env_is_true_false (var : string) :
  env_is_true h var = false <-> env h !! var <> Some "true".
Proof. unfold env_is_true. apply bool_decide_eq_false. Qed.

(** What line 41 gives for a parsed report: a throw for the document
    [null] and for a report with a count that cannot be added, and otherwise
    the summed count, or 0 when that is falsy. *)
Lemma totalVulns_of_cases (doc : Json) :
  (doc = JNull /\
   totalVulns_of h doc = inr (TypeError "Cannot read properties of null (reading 'metadata')")) \/
  (doc <> JNull /\ (exists c, c ∈ reported_counts doc /\ unprintable c = true) /\
   totalVulns_of h doc = inr cannot_convert) \/
  (doc <> JNull /\ (forall c, c ∈ reported_counts doc -> unprintable c = false) /\
   totalVulns_of h doc
   = inl (if Total_truthy (summed_count h (reported_counts doc))
          then summed_count h (reported_counts doc) else TNum 0)).
Proof.
  rewrite totalVulns_of_report.
  destruct (null_or_not doc) as [-> | Hdoc]; [by left | right].
  destruct (existsb unprintable (reported_counts doc)) eqn:Hcounts.
  - left. apply existsb_exists in Hcounts as (c & Hin & Hun). apply list_elem_of_In in Hin.
    split; [done|]. split; [eauto|].
    rewrite reduce_unprintable by eauto. by destruct doc.
  - right.
    assert (Hall : forall c, c ∈ reported_counts doc -> unprintable c = false).
    { intros c Hin. destruct (unprintable c) eqn:Hun; [|done].
      apply list_elem_of_In in Hin.
      assert (existsb unprintable (reported_counts doc) = true)
        by (apply existsb_exists; eauto).
      congruence. }
    split; [done|]. split; [done|].
    rewrite reduce_summed_count by done. by destruct doc.
Qed.

(** The check always returns a result: whatever is thrown inside is caught. *)
Lemma runOptionalAuditCheck_returns (p : Proc) :
  exists r p', runOptionalAuditCheck h p = (Value r, p').
Proof.
  unfold runOptionalAuditCheck, try_catch, bind, act, lift, ret, raise.
  destruct (env_is_true h "ENFORCE_AUDIT"); simpl; [|eauto].
  destruct (error (npm_audit h)); simpl; [eauto|].
  destruct (stdout (npm_audit h)) as [[|c text]|]; simpl; [eauto| |eauto].
  destruct (JSON_parse h (String c text)) as [audit|e]; simpl; [|eauto].
  destruct (totalVulns_of h audit) as [t|e]; simpl; [|eauto].
  destruct (greater_than_zero h t); simpl; eauto.
Qed.

(** C5.  When [ENFORCE_AUDIT] is unset or holds anything but the text true
    (the text false included), [runOptionalAuditCheck] returns
    [{ok: true, message: 'audit skipped'}] and leaves the process as it was:
    no call left the script, so the audit tool was not run. *)
Theorem audit_skipped_unless_enforced (p : Proc) :
  env h !! "ENFORCE_AUDIT" <> Some "true" ->
  runOptionalAuditCheck h p = (Value (mkStartupResult true "audit skipped" None), p).
Proof.
  intros Hoff. apply env_is_true_false in Hoff.
  unfold runOptionalAuditCheck, try_catch. rewrite Hoff. reflexivity.
Qed.

(** C8.  With [ENFORCE_AUDIT] set to true, a tool that ran without an
    execution error and printed nothing ([stdout] null or empty) makes
    [runOptionalAuditCheck] return [{ok: true, message: 'no audit output'}]:
    the only call that left the script is the spawn, [JSON.parse] is not
    called. *)
Theorem audit_empty_output_passes (p : Proc) :
  env h !! "ENFORCE_AUDIT" = Some "true" ->
  error (npm_audit h) = None ->
  stdout (npm_audit h) = None \/ stdout (npm_audit h) = Some "" ->
  exists p',
    runOptionalAuditCheck h p = (Value (mkStartupResult true "no audit output" None), p') /\
    trace p' = (trace p ++ [SpawnSync "npm" ["audit"; "--json"; "--production"]]) /\
    (forall text, JsonParse text ∉ trace p -> JsonParse text ∉ trace p').
Proof.
  intros Hon Herr Hout. apply env_is_true_spec in Hon.
  unfold runOptionalAuditCheck, try_catch, bind, act, ret. rewrite Hon. simpl.
  rewrite Herr.
  eexists. split; [destruct Hout as [-> | ->]; reflexivity|].
  simpl. split; [reflexivity|].
  intros text Hnot Hin. apply elem_of_app in Hin as [Hin | Hin]; [tauto|].
  apply list_elem_of_singleton in Hin. discriminate.
Qed.

(** The result of the check on a report that parsed. *)
Lemma audit_on_report (p : Proc) (text : string) (doc : Json) :
  env h !! "ENFORCE_AUDIT" = Some "true" ->
  error (npm_audit h) = None ->
  stdout (npm_audit h) = Some text -> text <> "" ->
  JSON_parse h text = inl doc ->
  fst (runOptionalAuditCheck h p)
  = Value match totalVulns_of h doc with
          | inr e => mkStartupResult false "audit check failed" (Some (String_of e))
          | inl total =>
              if greater_than_zero h total
              then mkStartupResult false
                     ("npm audit found " +:+ Total_toString h total +:+ " vulnerabilities") None
              else mkStartupResult true "npm audit passed" None
          end.
Proof.
  intros Hon Herr Hout Hne Hparse. apply env_is_true_spec in Hon.
  unfold runOptionalAuditCheck, try_catch, bind, act, lift, ret, raise.
  rewrite Hon, Herr, Hout. simpl.
  destruct text as [|c text]; [done|]. simpl. rewrite Hparse. simpl.
  destruct (totalVulns_of h doc) as [total|e]; simpl; [|done].
  by destruct (greater_than_zero h total).
Qed.

(** The result of the check on a report whose counts can all be added. *)
Lemma audit_of_counts (p : Proc) (text : string) (doc : Json) :
  env h !! "ENFORCE_AUDIT" = Some "true" ->
  error (npm_audit h) = None ->
  stdout (npm_audit h) = Some text -> text <> "" ->
  JSON_parse h text = inl doc ->
  doc <> JNull ->
  (forall c, c ∈ reported_counts doc -> unprintable c = false) ->
  fst (runOptionalAuditCheck h p)
  = Value (if exceeds_zero h (summed_count h (reported_counts doc))
           then mkStartupResult false
                  ("npm audit found "
                   +:+ Total_toString h (summed_count h (reported_counts doc))
                   +:+ " vulnerabilities") None
           else mkStartupResult true "npm audit passed" None).
Proof.
  intros Hon Herr Hout Hne Hparse Hdoc Hall.
  rewrite (audit_on_report p text doc) by done.
  destruct (totalVulns_of_cases doc)
    as [[-> _] | [(_ & (c & Hin & Hun) & _) | (_ & _ & ->)]]; [done | |].
  { apply Hall in Hin. congruence. }
  rewrite greater_than_zero_total.
  destruct (exceeds_zero h _) eqn:Hpos; [|done].
  by rewrite (exceeds_zero_truthy h _ Hpos).
Qed.

(** The result of the check on a report whose counts cannot be read. *)
Lemma audit_of_unreadable (p : Proc) (text : string) (doc : Json) :
  env h !! "ENFORCE_AUDIT" = Some "true" ->
  error (npm_audit h) = None ->
  stdout (npm_audit h) = Some text -> text <> "" ->
  JSON_parse h text = inl doc ->
  doc = JNull \/ (exists c, c ∈ reported_counts doc /\ unprintable c = true) ->
  exists e,
    fst (runOptionalAuditCheck h p)
    = Value (mkStartupResult false "audit check failed" (Some (String_of e))) /\
    (doc <> JNull -> e = cannot_convert).
Proof.
  intros Hon Herr Hout Hne Hparse Hbad.
  rewrite (audit_on_report p text doc) by done.
  destruct (totalVulns_of_cases doc)
    as [[-> ->] | [(Hdoc & _ & ->) | (Hdoc & Hall & _)]]; [by eexists | by eexists |].
  destruct Hbad as [-> | (c & Hin & Hun)]; [done|].
  apply Hall in Hin. congruence.
Qed.

Lemma audit_verdict (p : Proc) :
  env h !! "ENFORCE_AUDIT" = Some "true" ->
  exists r p',
    runOptionalAuditCheck h p = (Value r, p') /\
    (ok r = false <->
       tool_failed h \/ parse_failed h \/ document_is_null h \/ count_unprintable h \/
       count_positive h).
Proof.
  intros Hon.
  destruct (runOptionalAuditCheck_returns p) as (r & p' & Hrun). exists r, p'.
  split; [exact Hrun|].
  assert (Hfst : fst (runOptionalAuditCheck h p) = Value r) by (by rewrite Hrun).
  clear Hrun. revert Hfst.
  unfold tool_failed, parse_failed, document_is_null, count_unprintable, count_positive, reports.
  destruct (error (npm_audit h)) as [err|] eqn:Herr.
  { intros Hfst. apply env_is_true_spec in Hon.
    unfold runOptionalAuditCheck, try_catch, bind, act, ret in Hfst.
    rewrite Hon, Herr in Hfst. simpl in Hfst. injection Hfst as <-.
    split; [intros _; left; eauto | reflexivity]. }
  assert (Hno : ~ is_Some (@None JsError)) by (intros [x Hx]; discriminate).
  destruct (stdout (npm_audit h)) as [text|] eqn:Hout.
  2: { intros Hfst. apply env_is_true_spec in Hon.
       unfold runOptionalAuditCheck, try_catch, bind, act, ret in Hfst.
       rewrite Hon, Herr, Hout in Hfst. simpl in Hfst. injection Hfst as <-.
       split; [discriminate|].
       intros [H | [(t & e & Ht & _) | [(t & Ht & _) | [(d & c & (t & Ht & _) & _)
                                                       | (d & (t & Ht & _) & _)]]]];
         [tauto | discriminate ..]. }
  destruct (decide (text = "")) as [-> | Hne].
  { intros Hfst. apply env_is_true_spec in Hon.
    unfold runOptionalAuditCheck, try_catch, bind, act, ret in Hfst.
    rewrite Hon, Herr, Hout in Hfst. simpl in Hfst. injection Hfst as <-.
    split; [discriminate|].
    intros [H | [(t & e & Ht & Hne & _) | [(t & Ht & Hne & _)
                                          | [(d & c & (t & Ht & Hne & _) & _)
                                            | (d & (t & Ht & Hne & _) & _)]]]];
      [tauto | congruence ..]. }
  destruct (JSON_parse h text) as [doc|e] eqn:Hparse.
  2: { intros Hfst. apply env_is_true_spec in Hon.
       unfold runOptionalAuditCheck, try_catch, bind, act, lift, ret, raise in Hfst.
       rewrite Hon, Herr, Hout in Hfst. destruct text as [|c text]; [done|].
       simpl in Hfst. rewrite Hparse in Hfst. simpl in Hfst. injection Hfst as <-.
       split; [intros _|reflexivity]. right; left. eauto. }
  assert (Hreport : forall doc', (exists text',
             Some text = Some text' /\ text' <> "" /\ JSON_parse h text' = inl doc') ->
             doc' = doc).
  { intros doc' (text' & Ht & _ & Hp). congruence. }
  destruct (null_or_not doc) as [Hnull | Hdoc].
  { destruct (audit_of_unreadable p text doc) as (e & Hres & _); [done .. | by left |].
    rewrite Hres. intros [= <-]. split; [intros _|reflexivity].
    right; right; left. subst doc. eauto. }
  destruct (existsb unprintable (reported_counts doc)) eqn:Hcounts.
  { apply existsb_exists in Hcounts as (c & Hin & Hun). apply list_elem_of_In in Hin.
    destruct (audit_of_unreadable p text doc) as (e & Hres & _); [done .. | right; eauto |].
    rewrite Hres. intros [= <-]. split; [intros _|reflexivity].
    right; right; right; left. exists doc, c. eauto 10. }
  assert (Hall : forall c, c ∈ reported_counts doc -> unprintable c = false).
  { intros c Hin. destruct (unprintable c) eqn:Hun; [|done].
    apply list_elem_of_In in Hin.
    assert (existsb unprintable (reported_counts doc) = true) by (apply existsb_exists; eauto).
    congruence. }
  rewrite (audit_of_counts p text doc) by done.
  destruct (exceeds_zero h (summed_count h (reported_counts doc))) eqn:Hpos; intros [= <-].
  - split; [intros _|reflexivity]. do 4 right. exists doc. eauto 10.
  - split; [discriminate|].
    intros [H | [(t & e & Ht & _ & He) | [Hn | [(d & c & Hd & Hin & Hun) | (d & Hd & Hp)]]]].
    + tauto.
    + congruence.
    + apply Hreport in Hn. congruence.
    + apply Hreport in Hd. subst d. apply Hall in Hin. congruence.
    + apply Hreport in Hd. subst d. congruence.
Qed.

(** C4, amended.  With [ENFORCE_AUDIT] set to true, [runOptionalAuditCheck]
    never throws: it returns a result, and that result has [ok: false] exactly
    when the audit tool failed to execute, or parsing its non-empty output
    fails, or that output parses to [null], or one of the counts of the report
    cannot be added (in both cases line 41 throws and the throw is caught), or
    the summed count is greater than 0; in every other case it has [ok: true].
    The summed count is the one of [summed_count]: for a report whose counts
    can all be added the result is decided by it and carries it in its
    message; for a report whose counts cannot be read the message is that of
    the [catch]. *)
Theorem audit_fails_exactly_when (p : Proc) :
  env h !! "ENFORCE_AUDIT" = Some "true" ->
  exists r p',
    runOptionalAuditCheck h p = (Value r, p') /\
    (ok r = false <->
       tool_failed h \/ parse_failed h \/ document_is_null h \/ count_unprintable h \/
       count_positive h) /\
    (ok r = true <->
       ~ (tool_failed h \/ parse_failed h \/ document_is_null h \/ count_unprintable h \/
          count_positive h)) /\
    (forall doc,
       error (npm_audit h) = None -> reports h doc -> doc <> JNull ->
       (forall c, c ∈ reported_counts doc -> unprintable c = false) ->
       let total := summed_count h (reported_counts doc) in
       r = if exceeds_zero h total
           then mkStartupResult false
                  ("npm audit found " +:+ Total_toString h total +:+ " vulnerabilities") None
           else mkStartupResult true "npm audit passed" None) /\
    (forall doc,
       error (npm_audit h) = None -> reports h doc ->
       doc = JNull \/ (exists c, c ∈ reported_counts doc /\ unprintable c = true) ->
       ok r = false /\ msg r = "audit check failed").
Proof.
  intros Hon. destruct (audit_verdict p Hon) as (r & p' & Hrun & Hiff).
  exists r, p'. split; [exact Hrun|]. split; [exact Hiff|].
  assert (Hfst : fst (runOptionalAuditCheck h p) = Value r) by (by rewrite Hrun).
  split; [|split].
  - split.
    + intros Hok Hground. apply Hiff in Hground. congruence.
    + intros Hnone. destruct (ok r); [reflexivity|]. exfalso. by apply Hnone, Hiff.
  - intros doc Herr (text & Hout & Hne & Hparse) Hdoc Hall total.
    rewrite (audit_of_counts p text doc) in Hfst by done. by injection Hfst.
  - intros doc Herr (text & Hout & Hne & Hparse) Hbad.
    destruct (audit_of_unreadable p text doc) as (e & Hres & _); [done..|].
    rewrite Hres in Hfst. by injection Hfst as <-.
Qed.

End Audit.

Example audit_null_document_result :
  fst (runOptionalAuditCheck host_null_document fresh)
  = Value (mkStartupResult false "audit check failed"
             (Some "TypeError: Cannot read properties of null (reading 'metadata')")).
Proof. reflexivity. Qed.

(** A count with a [toString] of its own, as in
    [{metadata: {vulnerabilities: {a: {toString: 1}}}}]: adding it to 0
    throws, and the result is [ok: false]. *)
Example audit_unprintable_count_result :
  fst (runOptionalAuditCheck
         (host_reporting (report_of (JObject [("a", JObject [("toString", JNumber 1)])]))) fresh)
  = Value (mkStartupResult false "audit check failed"
             (Some "TypeError: Cannot convert object to primitive value")).
Proof. reflexivity. Qed.

(** C4 as stated fails: the tool ran, its output parsed (to [null]), no
    count was computed, and still the result has [ok: false]. *)
Lemma audit_null_document_counterexample :
  ~ audit_fails_exactly_on_listed_grounds host_null_document.
Proof.
  intros Hclaim.
  destruct (Hclaim eq_refl fresh) as (r & p' & Hrun & Hiff).
  vm_compute in Hrun. injection Hrun as <- <-.
  destruct Hiff as [Hgrounds _].
  destruct (Hgrounds eq_refl)
    as [[e He] | [(t & e & Ht & _ & He) | (d & (t & Ht & _ & Hd) & Hp)]].
  - discriminate He.
  - injection Ht as <-. discriminate He.
  - injection Ht as <-. vm_compute in Hd. injection Hd as <-. discriminate Hp.
Qed.

Lemma audit_fails_exactly_when_witness :
  let h := host_null_document in
  exists r p',
    runOptionalAuditCheck h fresh = (Value r, p') /\
    (ok r = false <->
       tool_failed h \/ parse_failed h \/ document_is_null h \/ count_unprintable h \/
       count_positive h) /\
    (ok r = true <->
       ~ (tool_failed h \/ parse_failed h \/ document_is_null h \/ count_unprintable h \/
          count_positive h)) /\
    (forall doc,
       error (npm_audit h) = None -> reports h doc -> doc <> JNull ->
       (forall c, c ∈ reported_counts doc -> unprintable c = false) ->
       let total := summed_count h (reported_counts doc) in
       r = if exceeds_zero h total
           then mkStartupResult false
                  ("npm audit found " +:+ Total_toString h total +:+ " vulnerabilities") None
           else mkStartupResult true "npm audit passed" None) /\
    (forall doc,
       error (npm_audit h) = None -> reports h doc ->
       doc = JNull \/ (exists c, c ∈ reported_counts doc /\ unprintable c = true) ->
       ok r = false /\ msg r = "audit check failed").
Proof. apply (audit_fails_exactly_when host_null_document fresh). reflexivity. Defined.

Lemma audit_skipped_unless_enforced_witness :
  runOptionalAuditCheck (sample_host [("ENFORCE_AUDIT", "false")] (mkSpawnResult None None)) fresh
  = (Value (mkStartupResult true "audit skipped" None), fresh).
Proof.
  apply (audit_skipped_unless_enforced
           (sample_host [("ENFORCE_AUDIT", "false")] (mkSpawnResult None None)) fresh).
  vm_compute. discriminate.
Defined.

Lemma audit_empty_output_passes_witness :
  exists p',
    runOptionalAuditCheck (sample_host [("ENFORCE_AUDIT", "true")] (mkSpawnResult None (Some ""))) fresh
    = (Value (mkStartupResult true "no audit output" None), p') /\
    trace p' = trace fresh ++ [SpawnSync "npm" ["audit"; "--json"; "--production"]] /\
    (forall text, JsonParse text ∉ trace fresh -> JsonParse text ∉ trace p').
Proof.
  apply (audit_empty_output_passes
           (sample_host [("ENFORCE_AUDIT", "true")] (mkSpawnResult None (Some ""))) fresh).
  - reflexivity.
  - reflexivity.
  - right. reflexivity.
Defined.

(** The scenario of the specification: the tool reports two high
    vulnerabilities, and the parser answers the document
    [{metadata: {vulnerabilities: {high: 2}}}] for its output. *)
Example audit_two_high_blocks_startup :
  let h := mkHost (list_to_map [("ENFORCE_AUDIT", "true")])
             (mkSpawnResult None (Some "<the report of npm audit>"))
             (fun _ => inl (JObject [("metadata",
                                      JObject [("vulnerabilities", JObject [("high", JNumber 2)])])]))
             decimal_number decimal_double integer_text in
  exit_code (boot h) = Some 1 /\
  ConsoleError [Text "[STARTUP ERROR]";
                Text "Startup blocked: npm audit found 2 vulnerabilities"] ∈ trace (boot h).
Proof. split; [reflexivity|]. vm_compute. set_solver. Qed.

(** ** The start deadline *)

(** C9.  When [Number(process.env.STARTUP_TIMEOUT_MS)] is [NaN] (a text that
    is no number, or no value at all) or [0], the deadline handed to
    [startServerWithTimeout] is the default 30000 ms: it is the delay of the
    timer the call arms. *)
Theorem startup_timeout_falls_back (h : Host) :
  Number_of_env h "STARTUP_TIMEOUT_MS" = NaN \/ Number_of_env h "STARTUP_TIMEOUT_MS" = Num 0 ->
  startup_timeout h = Num 30000 /\
  forall server p,
    start server = Function Returns ->
    trace (run (app_server_imported h (Some server)) p)
    = (trace p ++ [CallStart; SetTimeout (Num 30000)]).
Proof.
  intros Hfalsy.
  assert (Hdefault : startup_timeout h = Num 30000).
  { unfold startup_timeout. destruct Hfalsy as [-> | ->]; reflexivity. }
  split; [exact Hdefault|].
  intros server p Hstart.
  unfold run, app_server_imported, startServerWithTimeout, bind, act, ret, set_race, set_app_pc, park.
  rewrite Hstart, Hdefault. simpl. by rewrite <- app_assoc.
Qed.

Lemma startup_timeout_falls_back_witness :
  startup_timeout (sample_host [("STARTUP_TIMEOUT_MS", "0")] (mkSpawnResult None None)) = Num 30000 /\
  forall server p,
    start server = Function Returns ->
    trace (run (app_server_imported
                  (sample_host [("STARTUP_TIMEOUT_MS", "0")] (mkSpawnResult None None))
                  (Some server)) p)
    = (trace p ++ [CallStart; SetTimeout (Num 30000)]).
Proof.
  apply (startup_timeout_falls_back
           (sample_host [("STARTUP_TIMEOUT_MS", "0")] (mkSpawnResult None None))).
  right. reflexivity.
Defined.

Example startup_timeout_not_a_number :
  startup_timeout (sample_host [("STARTUP_TIMEOUT_MS", "soon")] (mkSpawnResult None None)) = Num 30000.
Proof. reflexivity. Qed.

Example startup_timeout_given :
  startup_timeout (sample_host [("STARTUP_TIMEOUT_MS", "50")] (mkSpawnResult None None)) = Num 50.
Proof. reflexivity. Qed.

(** ** The race between [start()] and the timer *)

Lemma raced_settled_stays (history : list RaceEvent) (r : Race) (s : Settlement) :
  raced r = Settled s -> raced (race_after r history) = Settled s.
Proof.
  revert r. induction history as [|ev history IH]; intros r Hr; [exact Hr|].
  simpl. apply IH.
  destruct ev as [s'|]; simpl.
  - unfold settle_start. destruct (startPromise r); [|exact Hr].
    simpl. unfold first_settled. by rewrite Hr.
  - unfold fire_timer. destruct (timeoutPromise r); [|exact Hr].
    simpl. unfold first_settled. by rewrite Hr.
Qed.

(** The first event decides the race. *)
Lemma raced_after_pending (history : list RaceEvent) :
  raced (race_after pending_race history)
  = match history with
    | [] => Unsettled
    | StartSettles s :: _ => Settled s
    | TimerFires :: _ => Settled (Rejected timed_out)
    end.
Proof.
  destruct history as [|[s|] rest]; [reflexivity| |]; simpl;
    by apply raced_settled_stays.
Qed.

(** C1 as stated fails: a [start()] that rejects before the timer fires has
    settled before the deadline, and the call rejects. *)
Lemma start_rejecting_early_counterexample : ~ resolves_iff_start_settles_first.
Proof.
  intros Hclaim.
  destruct (Hclaim sample_server (Some (Num 50)) fresh pending_race
              (emit [CallStart; SetTimeout (Num 50)] fresh) eq_refl
              [StartSettles (Rejected (Error "listen EADDRINUSE")); TimerFires])
    as [_ Hback].
  assert (Hfulfilled : raced (race_after pending_race
            [StartSettles (Rejected (Error "listen EADDRINUSE")); TimerFires]) = Settled Fulfilled)
    by (apply Hback; eauto).
  discriminate Hfulfilled.
Qed.

Example start_rejecting_early_outcome :
  raced (race_after pending_race
           [StartSettles (Rejected (Error "listen EADDRINUSE")); TimerFires])
  = Settled (Rejected (Error "listen EADDRINUSE")).
Proof. reflexivity. Qed.

(** C1, amended.  For a [start()] that returns a promise,
    [startServerWithTimeout(serverModule, timeoutMs)] calls [start()], arms
    one timer of [timeoutMs] (30000 when omitted) and returns the race of the
    two.  The race resolves successfully exactly when [start()] fulfils
    before the timer fires; when [start()] rejects first the race rejects
    with that reason; when [start()] never settles the race rejects with
    [Error('Server start timed out')] as soon as the timer fires.  After a
    timeout the promise of [start()] is left alone: nothing was called on
    the server but [start()], and a later settlement is recorded on that
    promise without changing the outcome of the race. *)
Theorem start_race_outcome (serverModule : ServerModule) (timeoutMs : option JsNumber) (p : Proc) :
  start serverModule = Function Returns ->
  (exists p',
     startServerWithTimeout serverModule timeoutMs p = (Value pending_race, p') /\
     trace p' = (trace p ++ [CallStart;
                             SetTimeout (match timeoutMs with Some ms => ms | None => Num 30000 end)])) /\
  (forall history,
     raced (race_after pending_race history) = Settled Fulfilled
     <-> exists rest, history = StartSettles Fulfilled :: rest) /\
  (forall reason rest,
     raced (race_after pending_race (StartSettles (Rejected reason) :: rest))
     = Settled (Rejected reason)) /\
  (forall history,
     (forall s, StartSettles s ∉ history) -> TimerFires ∈ history ->
     raced (race_after pending_race history) = Settled (Rejected timed_out)) /\
  (forall s rest,
     let r := race_after pending_race (TimerFires :: StartSettles s :: rest) in
     startPromise r = Settled s /\ raced r = Settled (Rejected timed_out)).
Proof.
  intros Hstart. split; [|split; [|split; [|split]]].
  - unfold startServerWithTimeout, bind, act, ret. rewrite Hstart. simpl.
    eexists. split; [reflexivity|]. simpl. by rewrite <- app_assoc.
  - intros history. rewrite raced_after_pending. split.
    + destruct history as [|[[|reason]|] rest]; try discriminate. eauto.
    + by intros [rest ->].
  - intros reason rest. by rewrite raced_after_pending.
  - intros history Hnever Hfires. rewrite raced_after_pending.
    destruct history as [|[s|] rest].
    + by apply elem_of_nil in Hfires.
    + exfalso. apply (Hnever s). apply list_elem_of_here.
    + reflexivity.
  - intros s rest. simpl. split.
    + assert (Hkeep : forall history r s0, startPromise r = Settled s0 ->
                                      startPromise (race_after r history) = Settled s0).
      { induction history as [|ev history IH]; intros r s0 Hr; [exact Hr|].
        simpl. apply IH. destruct ev as [s'|]; simpl.
        - unfold settle_start. by rewrite Hr.
        - unfold fire_timer. destruct (timeoutPromise r); [|exact Hr]. exact Hr. }
      by apply Hkeep.
    + by apply raced_settled_stays.
Qed.

Lemma start_race_outcome_witness :
  (exists p',
     startServerWithTimeout sample_server (Some (Num 50)) fresh = (Value pending_race, p') /\
     trace p' = (trace fresh ++ [CallStart; SetTimeout (Num 50)])) /\
  (forall history,
     raced (race_after pending_race history) = Settled Fulfilled
     <-> exists rest, history = StartSettles Fulfilled :: rest) /\
  (forall reason rest,
     raced (race_after pending_race (StartSettles (Rejected reason) :: rest))
     = Settled (Rejected reason)) /\
  (forall history,
     (forall s, StartSettles s ∉ history) -> TimerFires ∈ history ->
     raced (race_after pending_race history) = Settled (Rejected timed_out)) /\
  (forall s rest,
     let r := race_after pending_race (TimerFires :: StartSettles s :: rest) in
     startPromise r = Settled s /\ raced r = Settled (Rejected timed_out)).
Proof. apply (start_race_outcome sample_server (Some (Num 50)) fresh). reflexivity. Defined.

(** *** Running the stretches *)

Ltac unfold_monad :=
  unfold run, detached, top_level, failed_with, niceErrorLog, try_finally, try_catch, bind,
    console_log, console_error, act, emit, set_app_pc, set_race, set_serverInstance,
    set_shuttingDown, set_awaiting_stop, get_shuttingDown, get_serverInstance,
    process_exit, raise, ret, park.

Section Stretches.

Variable h : Host.

Lemma step_exited (p : Proc) (s : Stimulus) :
  exit_code p <> None -> step h p s = p.
Proof. unfold step, alive. by destruct (exit_code p). Qed.


Lemma steps_app (p : Proc) (before after : list Stimulus) :
  steps h p (before ++ after) = steps h (steps h p before) after.
Proof. apply fold_left_app. Qed.

(** A stretch of [app] that throws rejects [app()]: the [catch] of line 141
    logs and exits with 1. *)
Lemma top_level_raise (m : M unit) (p p1 : Proc) (e : Thrown) :
  m p = (Raise e, p1) -> run (detached h (top_level h m)) p = failed_with h e p1.
Proof.
  intros Hm. unfold_monad. rewrite Hm. simpl.
  by destruct (env_is_true h "DEBUG").
Qed.

Lemma top_level_parked (m : M unit) (p p1 : Proc) :
  m p = (Parked, p1) -> run (detached h (top_level h m)) p = p1.
Proof. intros Hm. unfold_monad. by rewrite Hm. Qed.

Lemma top_level_value (m : M unit) (p p1 : Proc) :
  m p = (Value tt, p1) -> run (detached h (top_level h m)) p = p1.
Proof. intros Hm. unfold_monad. by rewrite Hm. Qed.

Lemma failed_with_fields (e : Thrown) (p : Proc) :
  trace (failed_with h e p) = (trace p ++ error_log h e ++ [ProcessExit 1]) /\
  exit_code (failed_with h e p) = Some 1 /\
  app_pc (failed_with h e p) = AppRejected e /\
  serverInstance (failed_with h e p) = serverInstance p /\
  shuttingDown (failed_with h e p) = shuttingDown p /\
  awaiting_stop (failed_with h e p) = awaiting_stop p /\
  race (failed_with h e p) = race p.
Proof.
  unfold error_log. unfold_monad. simpl.
  destruct (env_is_true h "DEBUG"); simpl; by rewrite <- !app_assoc.
Qed.

(** The audit check leaves the process as it was but for its calls. *)
Lemma runOptionalAuditCheck_calls (p : Proc) :
  exists r, runOptionalAuditCheck h p = (Value r, emit (audit_calls h) p).
Proof.
  unfold audit_calls, runOptionalAuditCheck. unfold_monad. unfold lift, ret, raise, emit.
  destruct p as [inst sd pc rc aw tr ec]. simpl.
  destruct (env_is_true h "ENFORCE_AUDIT"); simpl; [|rewrite app_nil_r; eauto].
  destruct (error (npm_audit h)); simpl; [eauto|].
  destruct (stdout (npm_audit h)) as [[|c text]|]; simpl; [eauto| |eauto].
  rewrite <- app_assoc. simpl.
  destruct (JSON_parse h (String c text)) as [audit|e]; simpl; [|eauto].
  destruct (totalVulns_of h audit) as [t|e]; simpl; [|eauto].
  destruct (greater_than_zero h t); simpl; eauto.
Qed.

End Stretches.

(** *** What every reachable process satisfies *)

Section Invariants.

Variable h : Host.

Lemma stop_calls_app (a b : list Action) :
  stop_calls (a ++ b) = (stop_calls a + stop_calls b)%nat.
Proof. unfold stop_calls. by rewrite List.filter_app, length_app. Qed.

Lemma error_log_quiet (e : Thrown) :
  List.filter is_bootstrap_action (error_log h e) = [] /\ stop_calls (error_log h e) = 0%nat.
Proof.
  unfold error_log. unfold_monad. simpl.
  by destruct (env_is_true h "DEBUG"), e.
Qed.

Lemma audit_calls_quiet :
  List.filter is_bootstrap_action (audit_calls h) = audit_calls h /\
  stop_calls (audit_calls h) = 0%nat.
Proof.
  unfold audit_calls.
  destruct (env_is_true h "ENFORCE_AUDIT"); [|done].
  by destruct (error (npm_audit h)), (stdout (npm_audit h)) as [[|c text]|].
Qed.

Lemma script_prefix (n : nat) :
  (audit_calls h ++ take n (steps_after_audit h)) `prefix_of` bootstrap_script h.
Proof.
  unfold bootstrap_script. apply prefix_app, prefix_take.
Qed.

Lemma consistent_failed_with (e : Thrown) (p : Proc) :
  serverInstance p = None ->
  (shuttingDown p = false -> awaiting_stop p = false) ->
  consistent (failed_with h e p).
Proof.
  intros Hinst Hidle.
  destruct (failed_with_fields h e p) as (Htr & Hec & Hpc & Hin & Hsd & Haw & Hrc).
  split; rewrite ?Hec, ?Hpc, ?Hin, ?Hsd, ?Haw, ?Hrc; try done.
Qed.

Lemma orderly_failed_with (e : Thrown) (p : Proc) :
  List.filter is_bootstrap_action (trace p) `prefix_of` bootstrap_script h ->
  (shuttingDown p = false -> stop_calls (trace p) = 0%nat) ->
  (stop_calls (trace p) <= 1)%nat ->
  orderly h (failed_with h e p).
Proof.
  intros Hpre Hidle Hmost.
  destruct (failed_with_fields h e p) as (Htr & Hec & Hpc & Hin & Hsd & Haw & Hrc).
  destruct (error_log_quiet e) as [Hf Hs].
  split; rewrite ?Hpc, ?Hsd, ?Htr, ?List.filter_app, ?stop_calls_app, ?Hf, ?Hs; simpl;
    rewrite ?app_nil_r, ?Nat.add_0_r; done.
Qed.

Lemma filter_bootstrap_prefix (p : Proc) :
  orderly h p -> List.filter is_bootstrap_action (trace p) `prefix_of` bootstrap_script h.
Proof.
  intros [Ho _ _]. destruct (app_pc p); try done; rewrite Ho; apply script_prefix.
Qed.

(** Three kinds of leaf in the case analysis of [step]: a stretch of [app]
    that throws, a process whose stretch ran to a known end, and a stretch of
    [app] that parks or returns. *)
Ltac failing Hc Ho Hpc eqn :=
  erewrite top_level_raise by eqn;
  pose proof (pc_state _ Hc) as Hstate; rewrite Hpc in Hstate;
  pose proof (bootstrap_in_order _ _ Ho) as Hboot; rewrite Hpc in Hboot;
  destruct Hc as [_ _ Hc3 _]; destruct Ho as [_ Ho2 Ho3];
  split;
  [ apply consistent_failed_with; simpl; tauto
  | apply orderly_failed_with; simpl;
    rewrite ?List.filter_app, ?stop_calls_app, ?Nat.add_0_r; simpl; rewrite ?app_nil_r;
    [ rewrite ?Hboot, <- ?app_assoc;
      first [ apply script_prefix | exact (script_prefix 2) | exact (script_prefix 4) ]
    | done | done ] ].

Lemma shutdown_reentrant (p : Proc) (sig : SignalName) :
  shuttingDown p = true -> shutdown sig p = (Value tt, p).
Proof. intros Hsd. unfold shutdown, get_shuttingDown, bind, ret. by rewrite Hsd. Qed.

Lemma shutdown_first (p : Proc) (sig : SignalName) :
  shuttingDown p = false ->
  shutdown sig p
  = match serverInstance p with
    | Some {| stop := Function Returns |} =>
        (Parked, run (set_shuttingDown true ;; act (shutdown_notice sig) ;;
                      act CallStop ;; set_awaiting_stop true) p)
    | Some {| stop := Function (Throws e) |} =>
        (Exited, run (set_shuttingDown true ;; act (shutdown_notice sig) ;;
                      act CallStop ;; shutdown_catch e ;; process_exit 0) p)
    | _ =>
        (Exited, run (set_shuttingDown true ;; act (shutdown_notice sig) ;; process_exit 0) p)
    end.
Proof.
  intros Hsd. unfold shutdown, shutdown_catch, shutdown_notice. unfold_monad. rewrite Hsd. simpl.
  destruct (serverInstance p) as [[st [| |[e|]]]|]; reflexivity.
Qed.

Ltac settled Hc Ho Hpc :=
  pose proof (pc_state _ Hc) as Hstate; rewrite Hpc in Hstate;
  pose proof (bootstrap_in_order _ _ Ho) as Hboot; rewrite Hpc in Hboot;
  destruct Hc as [_ Hc2 Hc3 Hc4]; destruct Ho as [_ Ho2 Ho3];
  split; (split; unfold_monad; simpl in *; rewrite ?Hpc;
          rewrite ?List.filter_app, ?stop_calls_app, ?Nat.add_0_r; simpl;
          rewrite ?app_nil_r, ?Hboot, <- ?app_assoc; try done; try tauto;
          try congruence; try (by intuition (eauto; congruence));
          try (rewrite ?Ho2 by done; unfold stop_calls; simpl; lia)).

Ltac advancing Hc Ho Hpc lem eqn :=
  erewrite lem by eqn;
  pose proof (pc_state _ Hc) as Hstate; rewrite Hpc in Hstate;
  pose proof (bootstrap_in_order _ _ Ho) as Hboot; rewrite Hpc in Hboot;
  destruct Hc as [_ Hc2 Hc3 Hc4]; destruct Ho as [_ Ho2 Ho3];
  split; (split; unfold_monad; simpl in *; rewrite ?Hpc;
          rewrite ?List.filter_app, ?stop_calls_app, ?Nat.add_0_r; simpl;
          rewrite ?app_nil_r, ?Hboot, <- ?app_assoc; try done; try tauto;
          try congruence; try (by intuition (eauto; congruence));
          try (rewrite ?Ho2 by done; unfold stop_calls; simpl; lia)).

Lemma invariant_step (p : Proc) (s : Stimulus) :
  consistent p -> orderly h p -> consistent (step h p s) /\ orderly h (step h p s).
Proof.
  intros Hc Ho.
  destruct (exit_code p) as [c|] eqn:Hec; [by rewrite step_exited by congruence|].
  unfold step, alive. rewrite Hec. simpl.
  destruct s as [imported | s | imported | s | | s | sig | reason | err].
  - (* the validator module was imported, or not *)
    destruct (app_pc p) eqn:Hpc; try done.
    destruct imported as [validateModule|].
    + destruct (member_or (default validateModule)
                  (member_or (validateDependencies validateModule) NotCallable)) as [| |[e|]] eqn:Hmember.
      * failing Hc Ho Hpc ltac:(unfold app_validator_imported; rewrite Hmember; reflexivity).
      * failing Hc Ho Hpc ltac:(unfold app_validator_imported; rewrite Hmember; reflexivity).
      * failing Hc Ho Hpc ltac:(unfold app_validator_imported; rewrite Hmember; reflexivity).
      * advancing Hc Ho Hpc top_level_parked ltac:(unfold app_validator_imported; rewrite Hmember; reflexivity).
    + failing Hc Ho Hpc ltac:(reflexivity).
  - (* the validator settled *)
    destruct (app_pc p) eqn:Hpc; try done.
    destruct s as [|e].
    + advancing Hc Ho Hpc top_level_parked ltac:(reflexivity).
    + failing Hc Ho Hpc ltac:(reflexivity).
  - (* the server module was imported, or not *)
    destruct (app_pc p) eqn:Hpc; try done.
    destruct imported as [server|].
    + destruct (start server) as [| |[e|]] eqn:Hmember.
      * failing Hc Ho Hpc ltac:(unfold app_server_imported, startServerWithTimeout; rewrite Hmember; reflexivity).
      * failing Hc Ho Hpc ltac:(unfold app_server_imported, startServerWithTimeout; rewrite Hmember; reflexivity).
      * failing Hc Ho Hpc ltac:(unfold app_server_imported, startServerWithTimeout; rewrite Hmember; reflexivity).
      * advancing Hc Ho Hpc top_level_parked ltac:(unfold app_server_imported, startServerWithTimeout; rewrite Hmember; reflexivity).
    + failing Hc Ho Hpc ltac:(reflexivity).
  - (* the promise of start() settled *)
    destruct (race p) as [r|] eqn:Hrace; [|done].
    pose proof (pc_state _ Hc) as Hpcs.
    destruct (app_pc p) eqn:Hpc; try done; try (destruct Hpcs; congruence).
    + assert (r = pending_race) as -> by (destruct Hpcs; congruence).
      unfold race_moved. rewrite Hpc. simpl. destruct s as [|e].
      * advancing Hc Ho Hpc top_level_value ltac:(reflexivity).
      * failing Hc Ho Hpc ltac:(reflexivity).
    + unfold race_moved. rewrite Hpc.
      destruct Hpcs as (Hinst & r0 & Hr0 & Hraced).
      assert (r0 = r) as -> by congruence.
      assert (raced (settle_start s r) = Settled Fulfilled)
        by (apply (raced_settled_stays [StartSettles s]), Hraced).
      settled Hc Ho Hpc.
  - (* the timer expired *)
    destruct (race p) as [r|] eqn:Hrace; [|done].
    pose proof (pc_state _ Hc) as Hpcs.
    destruct (app_pc p) eqn:Hpc; try done; try (destruct Hpcs; congruence).
    + assert (r = pending_race) as -> by (destruct Hpcs; congruence).
      unfold race_moved. rewrite Hpc. simpl.
      failing Hc Ho Hpc ltac:(reflexivity).
    + unfold race_moved. rewrite Hpc.
      destruct Hpcs as (Hinst & r0 & Hr0 & Hraced).
      assert (r0 = r) as -> by congruence.
      assert (raced (fire_timer r) = Settled Fulfilled)
        by (apply (raced_settled_stays [TimerFires]), Hraced).
      settled Hc Ho Hpc.
  - (* stop() settled *)
    destruct (awaiting_stop p) eqn:Haw; [|done].
    assert (Hsd : shuttingDown p = true).
    { destruct (shuttingDown p) eqn:Hsd; [done|]. pose proof (idle_not_awaiting _ Hc Hsd). congruence. }
    destruct (shutting_down_alive _ Hc Hsd Hec) as [_ [server Hserver]].
    pose proof (pc_state _ Hc) as Hpcs.
    destruct (app_pc p) eqn:Hpc; try done; try (destruct Hpcs; congruence).
    destruct s as [|e]; settled Hc Ho Hpc.
  - (* a termination signal *)
    unfold run, detached, try_catch.
    destruct (shuttingDown p) eqn:Hsd; [by rewrite shutdown_reentrant|].
    rewrite shutdown_first by done.
    pose proof (pc_state _ Hc) as Hpcs.
    destruct (serverInstance p) as [[st [| |[e|]]]|] eqn:Hinst; simpl;
      destruct (app_pc p) eqn:Hpc; try done; try (destruct Hpcs; congruence);
      settled Hc Ho Hpc.
  - (* an unhandled rejection *)
    unfold on_unhandledRejection.
    pose proof (pc_state _ Hc) as Hpcs.
    destruct (env_is_true h "CRASH_ON_UNHANDLED_REJECTION");
      destruct (app_pc p) eqn:Hpc; try done; try (destruct Hpcs; congruence);
      settled Hc Ho Hpc.
  - (* an uncaught exception *)
    unfold on_uncaughtException.
    pose proof (pc_state _ Hc) as Hpcs.
    destruct (env_is_true h "CRASH_ON_UNCAUGHT_EXCEPTION");
      destruct (app_pc p) eqn:Hpc; try done; try (destruct Hpcs; congruence);
      settled Hc Ho Hpc.
Qed.

Lemma invariant_boot : consistent (boot h) /\ orderly h (boot h).
Proof.
  unfold boot.
  destruct (runOptionalAuditCheck_calls h fresh) as [r Hr].
  destruct (ok r) eqn:Hok.
  - erewrite top_level_parked by (unfold app_begin, bind; rewrite Hr, Hok; reflexivity).
    destruct audit_calls_quiet as [Hf Hs].
    split; split; unfold_monad; simpl;
      rewrite ?List.filter_app, ?stop_calls_app, ?Hf, ?Hs; unfold stop_calls; simpl;
      try done; lia.
  - erewrite top_level_raise by (unfold app_begin, bind; rewrite Hr, Hok; reflexivity).
    destruct audit_calls_quiet as [Hf Hs].
    split.
    + by apply consistent_failed_with.
    + apply orderly_failed_with; simpl; rewrite ?Hs; try done; try lia.
      rewrite Hf. by apply prefix_app_r.
Qed.

(** Every process the event loop reaches from the module body is
    consistent and orderly. *)
Lemma invariant_steps (stimuli : list Stimulus) :
  consistent (steps h (boot h) stimuli) /\ orderly h (steps h (boot h) stimuli).
Proof.
  induction stimuli as [|s stimuli IH] using rev_ind; [apply invariant_boot|].
  rewrite steps_app. simpl. destruct IH as [Hc Ho]. by apply invariant_step.
Qed.

End Invariants.

Section Frame.

Variable h : Host.

Ltac frame_leaf Hsd :=
  unfold_monad; simpl; rewrite ?Hsd; simpl; repeat (destruct (env_is_true h _); simpl);
  rewrite ?stop_calls_app; unfold stop_calls; simpl; (split; [done | lia]).

(** Once [shuttingDown] is set it stays set, and [stop()] is not called again. *)
Lemma step_while_shutting_down (p : Proc) (s : Stimulus) :
  shuttingDown p = true ->
  shuttingDown (step h p s) = true /\
  stop_calls (trace (step h p s)) = stop_calls (trace p).
Proof.
  intros Hsd. unfold step. destruct (alive p); [|done]. simpl.
  destruct s as [imported | s | imported | s | | s | sig | reason | err].
  - destruct (app_pc p); try done.
    unfold app_validator_imported.
    destruct imported as [[[| |[e|]] [| |[e'|]]]|]; frame_leaf Hsd.
  - destruct (app_pc p); try done.
    unfold app_validated. destruct s as [|e]; frame_leaf Hsd.
  - destruct (app_pc p); try done.
    unfold app_server_imported, startServerWithTimeout.
    destruct imported as [[[| |[e|]] sp]|]; frame_leaf Hsd.
  - destruct (race p) as [[[|sp] [|tp] [|rd]]|]; [..|done]; unfold race_moved, app_started;
      destruct (app_pc p); destruct s as [|e]; frame_leaf Hsd.
  - destruct (race p) as [[[|sp] [|tp] [|rd]]|]; [..|done]; unfold race_moved, app_started;
      destruct (app_pc p); frame_leaf Hsd.
  - destruct (awaiting_stop p); [|done].
    unfold shutdown_resume, shutdown_catch. destruct s as [|e]; frame_leaf Hsd.
  - unfold run, detached, try_catch. by rewrite shutdown_reentrant.
  - unfold on_unhandledRejection. frame_leaf Hsd.
  - unfold on_uncaughtException. frame_leaf Hsd.
Qed.

Lemma steps_while_shutting_down (stimuli : list Stimulus) (p : Proc) :
  shuttingDown p = true ->
  shuttingDown (steps h p stimuli) = true /\
  stop_calls (trace (steps h p stimuli)) = stop_calls (trace p).
Proof.
  revert p. induction stimuli as [|s stimuli IH]; intros p Hsd; [done|].
  simpl. destruct (step_while_shutting_down p s Hsd) as [Hsd' Hstops].
  destruct (IH _ Hsd') as [Hsd'' Hstops']. split; congruence.
Qed.

End Frame.

(** ** Graceful shutdown *)

(** C2.  With a live server handle that has a [stop] function, the first
    [shutdown] sets [shuttingDown] and calls [stop()]; whatever follows it,
    any number of further signals arriving before or after [stop()] settles
    included, [stop()] has been called exactly once more than before; and
    every call of [shutdown] that finds [shuttingDown] set returns at once
    and leaves the process untouched. *)
Theorem shutdown_is_idempotent (h : Host) (p : Proc) (server : ServerModule) (body : SyncCall) :
  exit_code p = None ->
  shuttingDown p = false ->
  serverInstance p = Some server ->
  stop server = Function body ->
  (forall sig stimuli,
     stop_calls (trace (steps h p (Signal sig :: stimuli))) = S (stop_calls (trace p))) /\
  (forall sig stimuli sig',
     let q := steps h p (Signal sig :: stimuli) in
     shuttingDown q = true /\
     shutdown sig' q = (Value tt, q) /\
     step h q (Signal sig') = q).
Proof.
  intros Hec Hsd Hinst Hstop.
  assert (Hfirst : forall sig,
             shuttingDown (step h p (Signal sig)) = true /\
             stop_calls (trace (step h p (Signal sig))) = S (stop_calls (trace p))).
  { intros sig. unfold step, alive. rewrite Hec. simpl.
    unfold run, detached, try_catch. rewrite shutdown_first, Hinst by done.
    destruct server as [st sp]. simpl in Hstop. subst sp.
    destruct body as [e|]; unfold shutdown_catch; unfold_monad; simpl;
      rewrite ?stop_calls_app; unfold stop_calls; simpl; (split; [done | lia]). }
  split.
  - intros sig stimuli. simpl. destruct (Hfirst sig) as [Hsd1 Hstops1].
    destruct (steps_while_shutting_down h stimuli _ Hsd1) as [_ Hstops]. congruence.
  - intros sig stimuli sig' q. destruct (Hfirst sig) as [Hsd1 _].
    assert (Hq : shuttingDown q = true)
      by (subst q; simpl; apply (steps_while_shutting_down h stimuli _ Hsd1)).
    split; [exact Hq|]. split; [by apply shutdown_reentrant|].
    unfold step. destruct (alive q); [|done]. simpl.
    unfold run, detached, try_catch. by rewrite shutdown_reentrant.
Qed.

Lemma shutdown_is_idempotent_witness :
  (forall sig stimuli,
     stop_calls (trace (steps quiet_host running (Signal sig :: stimuli)))
     = S (stop_calls (trace running))) /\
  (forall sig stimuli sig',
     let q := steps quiet_host running (Signal sig :: stimuli) in
     shuttingDown q = true /\
     shutdown sig' q = (Value tt, q) /\
     step quiet_host q (Signal sig') = q).
Proof.
  apply (shutdown_is_idempotent quiet_host running sample_server Returns); reflexivity.
Defined.

Example two_signals_one_stop :
  trace (steps quiet_host running [Signal SIGINT; Signal SIGTERM; StopSettled Fulfilled; Signal SIGINT])
  = trace running ++ [shutdown_notice SIGINT; CallStop;
                      ConsoleLog [Text "[SHUTDOWN] server.stop() completed"]; ProcessExit 0].
Proof. reflexivity. Qed.

(** C3.  Whatever [stop()] does, [shutdown] ends in [process.exit(0)] and
    nothing it catches escapes it.  A first [shutdown] on a handle without a
    [stop] function (or without a handle) prints its notice and exits with 0;
    when [stop()] throws at once the error is printed after the call and the
    exit code is 0; when [stop()] returns a promise, [shutdown] waits, and
    once that promise fulfils or rejects it prints the completion or the
    error and exits with 0.  Neither stretch of [shutdown] ends in a throw. *)
Theorem shutdown_exits_with_zero (h : Host) :
  (forall sig s p e, fst (shutdown sig p) <> Raise e /\ fst (shutdown_resume s p) <> Raise e) /\
  (forall p sig,
     exit_code p = None -> shuttingDown p = false ->
     let p1 := step h p (Signal sig) in
     match serverInstance p with
     | Some {| stop := Function Returns |} =>
         exit_code p1 = None /\ awaiting_stop p1 = true /\
         trace p1 = trace p ++ [shutdown_notice sig; CallStop]
     | Some {| stop := Function (Throws e) |} =>
         exit_code p1 = Some 0 /\
         trace p1 = trace p ++ [shutdown_notice sig; CallStop; stop_report (Rejected e); ProcessExit 0]
     | _ =>
         exit_code p1 = Some 0 /\
         trace p1 = trace p ++ [shutdown_notice sig; ProcessExit 0]
     end) /\
  (forall p s,
     exit_code p = None -> awaiting_stop p = true ->
     let p2 := step h p (StopSettled s) in
     exit_code p2 = Some 0 /\
     trace p2 = trace p ++ [stop_report s; ProcessExit 0]).
Proof.
  split; [|split].
  - intros sig s p e. split.
    + destruct (shuttingDown p) eqn:Hsd.
      * by rewrite shutdown_reentrant.
      * rewrite shutdown_first by done.
        by destruct (serverInstance p) as [[st [| |[e'|]]]|].
    + unfold shutdown_resume, shutdown_catch. unfold_monad. by destruct s.
  - intros p sig Hec Hsd p1. subst p1. unfold step, alive. rewrite Hec. simpl.
    unfold run, detached, try_catch. rewrite shutdown_first by done.
    destruct (serverInstance p) as [[st [| |[e'|]]]|];
      unfold shutdown_catch; unfold_monad; simpl; rewrite <- ?app_assoc; by rewrite ?Hec.
  - intros p s Hec Haw p2. subst p2. unfold step, alive. rewrite Hec, Haw. simpl.
    unfold shutdown_resume, shutdown_catch. unfold_monad.
    destruct s as [|e]; simpl; by rewrite <- ?app_assoc.
Qed.

(** C7.  Each fault listener prints the fault; it ends the process, with
    code 1, exactly when its variable holds the text true, and otherwise
    leaves the process running with nothing changed but the printed line. *)
Theorem fault_listeners_exit_on_opt_in (h : Host) (p : Proc) (fault : Thrown) :
  exit_code p = None ->
  (let line := ConsoleError [Text "[UNHANDLED REJECTION]"; Text (String_of fault)] in
   let p' := step h p (UnhandledRejection fault) in
   line ∈ trace p' /\
   (exit_code p' <> None <-> env h !! "CRASH_ON_UNHANDLED_REJECTION" = Some "true") /\
   (env h !! "CRASH_ON_UNHANDLED_REJECTION" = Some "true" ->
    exit_code p' = Some 1 /\ trace p' = trace p ++ [line; ProcessExit 1]) /\
   (env h !! "CRASH_ON_UNHANDLED_REJECTION" <> Some "true" -> p' = emit [line] p)) /\
  (let line := ConsoleError [Text "[UNCAUGHT EXCEPTION]"; Text (message_or_string fault)] in
   let p' := step h p (UncaughtException fault) in
   line ∈ trace p' /\
   (exit_code p' <> None <-> env h !! "CRASH_ON_UNCAUGHT_EXCEPTION" = Some "true") /\
   (env h !! "CRASH_ON_UNCAUGHT_EXCEPTION" = Some "true" ->
    exit_code p' = Some 1 /\ trace p' = trace p ++ [line; ProcessExit 1]) /\
   (env h !! "CRASH_ON_UNCAUGHT_EXCEPTION" <> Some "true" -> p' = emit [line] p)).
Proof.
  intros Hec. split.
  - intros line p'. subst line p'. unfold step, alive. rewrite Hec. simpl.
    unfold on_unhandledRejection. unfold_monad.
    destruct (env_is_true h "CRASH_ON_UNHANDLED_REJECTION") eqn:Henv; simpl.
    + apply env_is_true_spec in Henv. rewrite <- app_assoc. simpl.
      repeat split; try done; try set_solver.
    + apply env_is_true_false in Henv. rewrite Hec.
      repeat split; try done; try set_solver.
  - intros line p'. subst line p'. unfold step, alive. rewrite Hec. simpl.
    unfold on_uncaughtException. unfold_monad.
    destruct (env_is_true h "CRASH_ON_UNCAUGHT_EXCEPTION") eqn:Henv; simpl.
    + apply env_is_true_spec in Henv. rewrite <- app_assoc. simpl.
      repeat split; try done; try set_solver.
    + apply env_is_true_false in Henv. rewrite Hec.
      repeat split; try done; try set_solver.
Qed.

Lemma fault_listeners_exit_on_opt_in_witness :
  (let line := ConsoleError [Text "[UNHANDLED REJECTION]"; Text (String_of (Error "socket hang up"))] in
   let p' := step quiet_host running (UnhandledRejection (Error "socket hang up")) in
   line ∈ trace p' /\
   (exit_code p' <> None <-> env quiet_host !! "CRASH_ON_UNHANDLED_REJECTION" = Some "true") /\
   (env quiet_host !! "CRASH_ON_UNHANDLED_REJECTION" = Some "true" ->
    exit_code p' = Some 1 /\ trace p' = trace running ++ [line; ProcessExit 1]) /\
   (env quiet_host !! "CRASH_ON_UNHANDLED_REJECTION" <> Some "true" -> p' = emit [line] running)) /\
  (let line := ConsoleError [Text "[UNCAUGHT EXCEPTION]"; Text (message_or_string (Error "socket hang up"))] in
   let p' := step quiet_host running (UncaughtException (Error "socket hang up")) in
   line ∈ trace p' /\
   (exit_code p' <> None <-> env quiet_host !! "CRASH_ON_UNCAUGHT_EXCEPTION" = Some "true") /\
   (env quiet_host !! "CRASH_ON_UNCAUGHT_EXCEPTION" = Some "true" ->
    exit_code p' = Some 1 /\ trace p' = trace running ++ [line; ProcessExit 1]) /\
   (env quiet_host !! "CRASH_ON_UNCAUGHT_EXCEPTION" <> Some "true" -> p' = emit [line] running)).
Proof.
  apply (fault_listeners_exit_on_opt_in quiet_host running (Error "socket hang up")).
  reflexivity.
Defined.

(** ** Bootstrap *)

Ltac close_failed :=
  match goal with
  | |- context [failed_with ?h ?e ?q] =>
      destruct (failed_with_fields h e q) as (Htr & Hex & Hpc' & _);
      rewrite Htr, Hex, Hpc'; unfold run, set_race; simpl; by rewrite <- ?app_assoc
  end.

Lemma failure_exits_with_one (h : Host) (p : Proc) (s : Stimulus)
    (attempted : list Action) (err : Thrown) :
  exit_code p = None ->
  failure p s = Some (attempted, err) ->
  trace (step h p s) = trace p ++ attempted ++ error_log h err ++ [ProcessExit 1] /\
  exit_code (step h p s) = Some 1 /\
  app_pc (step h p s) = AppRejected err.
Proof.
  intros Hec Hfail. unfold step, alive. rewrite Hec. simpl.
  unfold failure in Hfail.
  destruct (app_pc p) eqn:Hpc; try discriminate;
    destruct s as [imported | s | imported | s | | s | sig | reason | e]; try discriminate.
  - destruct imported as [validateModule|].
    + destruct (member_or (default validateModule)
                  (member_or (validateDependencies validateModule) NotCallable))
        as [| |[e|]] eqn:Hmember; simplify_eq;
        (erewrite top_level_raise
           by (unfold app_validator_imported; rewrite Hmember; reflexivity));
        close_failed.
    + simplify_eq. erewrite top_level_raise by reflexivity. close_failed.
  - destruct s as [|e]; simplify_eq. erewrite top_level_raise by reflexivity. close_failed.
  - destruct imported as [server'|].
    + destruct (start server') as [| |[e|]] eqn:Hmember; simplify_eq;
        (erewrite top_level_raise
           by (unfold app_server_imported, startServerWithTimeout; rewrite Hmember; reflexivity));
        close_failed.
    + simplify_eq. erewrite top_level_raise by reflexivity. close_failed.
  - destruct s as [|e]; [discriminate|].
    destruct (race p) as [[[|sp] tp [|rd]]|]; simplify_eq/=.
    unfold race_moved. rewrite Hpc. simpl.
    erewrite top_level_raise by reflexivity. close_failed.
  - destruct (race p) as [[sp [|tp] [|rd]]|]; simplify_eq/=.
    unfold race_moved. rewrite Hpc. simpl.
    erewrite top_level_raise by reflexivity. close_failed.
Qed.





Example exit_zero_without_shutdown_state :
  let p := steps quiet_host (boot quiet_host) [ValidatorImported (Some sample_validator)] in
  app_pc p = AwaitValidator /\ exit_code p = None /\ shuttingDown p = false /\
  end_status false p = Some 0 /\
  trace p = [Import validateDependenciesBasic_js; CallValidate].
Proof. by repeat split. Qed.

(** C10.  In every process the event loop reaches, [serverInstance] holds a
    handle only when [app] has run to its end, which it does only after the
    race of [startServerWithTimeout] resolved successfully; so a signal that
    arrives earlier finds no handle: [shutdown] prints its notice and exits
    with 0, and no [stop()] was ever called. *)
Theorem handle_recorded_after_start (h : Host) (stimuli : list Stimulus) :
  let p := steps h (boot h) stimuli in
  (forall server,
     serverInstance p = Some server ->
     app_pc p = AppFulfilled /\
     (exists r, race p = Some r /\ raced r = Settled Fulfilled) /\
     ConsoleLog [Text "[SERVER] started"] ∈ trace p) /\
  (app_pc p <> AppFulfilled -> serverInstance p = None) /\
  (forall sig,
     exit_code p = None -> app_pc p <> AppFulfilled ->
     let p' := step h p (Signal sig) in
     exit_code p' = Some 0 /\
     trace p' = trace p ++ [shutdown_notice sig; ProcessExit 0] /\
     stop_calls (trace p') = 0%nat).
Proof.
  intros p. destruct (invariant_steps h stimuli) as [Hc Ho]. fold p in Hc, Ho.
  pose proof (pc_state _ Hc) as Hstate. pose proof (bootstrap_in_order _ _ Ho) as Hboot.
  assert (Hnone : app_pc p <> AppFulfilled -> serverInstance p = None).
  { intros Hpc. destruct (app_pc p); try done; tauto. }
  split; [|split; [exact Hnone|]].
  - intros server Hserver.
    destruct (app_pc p) eqn:Hpc; try done; try (destruct Hstate; congruence).
    split; [done|]. split; [tauto|].
    apply list_elem_of_In.
    apply (proj1 (List.filter_In is_bootstrap_action _ (trace p))).
    rewrite Hboot. apply in_or_app. right. simpl. tauto.
  - intros sig Hec Hpc p'. subst p'.
    pose proof (Hnone Hpc) as Hinst.
    assert (Hsd : shuttingDown p = false).
    { destruct (shuttingDown p) eqn:Hsd; [|done].
      destruct (shutting_down_alive _ Hc Hsd Hec) as [_ [server Hserver]]. congruence. }
    unfold step, alive. rewrite Hec. simpl.
    unfold run, detached, try_catch. rewrite shutdown_first, Hinst by done.
    unfold_monad. simpl. rewrite <- app_assoc. simpl.
    split; [done|]. split; [done|].
    rewrite stop_calls_app, (stop_needs_shutdown _ _ Ho Hsd). reflexivity.
Qed.

(** ** Further properties of the audit check *)

Section AuditCounts.

Variable h : Host.

Lemma numeric_prefix_numbers (xs : list float) :
  numeric_prefix (JNumber <$> xs) = (xs, []).
Proof.
  induction xs as [|x xs IH]; [done|].
  rewrite fmap_cons. cbn [numeric_prefix numeric_count]. by rewrite IH.
Qed.

Lemma counts_object_values (counts : list (string * float)) :
  Object_values (counts_object counts) = JNumber <$> counts.*2.
Proof.
  unfold counts_object. simpl.
  induction counts as [|[k x] counts IH]; [done|]. rewrite !fmap_cons. by rewrite IH.
Qed.

(** X1.  When the report carries [metadata.vulnerabilities] as an object of
    numbers, the audit adds them up as doubles, from 0 and in the order of
    the report: it blocks exactly when that sum is greater than 0, then with
    the text of the sum in its message, and passes otherwise. *)
Theorem audit_sums_numeric_counts (p : Proc) (text : string)
    (props mprops : list (string * Json)) (counts : list (string * float)) :
  env h !! "ENFORCE_AUDIT" = Some "true" ->
  error (npm_audit h) = None ->
  stdout (npm_audit h) = Some text -> text <> "" ->
  JSON_parse h text = inl (JObject props) ->
  assoc "metadata" props = Some (JObject mprops) ->
  assoc "vulnerabilities" mprops = Some (counts_object counts) ->
  fst (runOptionalAuditCheck h p)
  = Value (if PrimFloat.ltb 0 (double_sum counts.*2)
           then mkStartupResult false
                  ("npm audit found " +:+ Number_toString h (double_sum counts.*2)
                   +:+ " vulnerabilities") None
           else mkStartupResult true "npm audit passed" None).
Proof.
  intros Hon Herr Hout Hne Hparse Hmeta Hvulns.
  assert (Hcounts : reported_counts (JObject props) = JNumber <$> counts.*2).
  { unfold reported_counts. rewrite Hmeta, Hvulns. apply counts_object_values. }
  rewrite (audit_of_counts h p text (JObject props)); try done.
  - rewrite Hcounts. unfold summed_count. by rewrite numeric_prefix_numbers.
  - rewrite Hcounts. intros c Hin. apply list_elem_of_fmap in Hin as (x & -> & _). done.
Qed.

(** X2.  The audit fails open on a report without counts: output that
    parses to a number, a string, a boolean or an array, to an object without
    [metadata], or to one whose [metadata] has no or an empty
    [vulnerabilities] object, gives [{ok: true, message: 'npm audit passed'}]. *)
Theorem audit_passes_without_counts (p : Proc) (text : string) (doc : Json) :
  env h !! "ENFORCE_AUDIT" = Some "true" ->
  error (npm_audit h) = None ->
  stdout (npm_audit h) = Some text -> text <> "" ->
  JSON_parse h text = inl doc ->
  no_counts doc ->
  fst (runOptionalAuditCheck h p) = Value (mkStartupResult true "npm audit passed" None).
Proof.
  intros Hon Herr Hout Hne Hparse Hnone.
  assert (Hcounts : reported_counts doc = []).
  { destruct doc as [| b | x | s | items | props]; simpl in *; try done.
    destruct (assoc "metadata" props) as [[| b | x | s | items | mprops]|]; simpl in *; try done.
    by destruct Hnone as [-> | ->]. }
  rewrite (audit_of_counts h p text doc); try done.
  - by rewrite Hcounts.
  - by intros ->.
  - rewrite Hcounts. intros c Hin. by apply elem_of_nil in Hin.
Qed.

End AuditCounts.

Lemma audit_sums_numeric_counts_witness :
  let counts := [("info", 0); ("low", 1); ("moderate", 0); ("high", 2); ("critical", 0)]%float in
  fst (runOptionalAuditCheck (host_reporting (report_of (counts_object counts))) fresh)
  = Value (if PrimFloat.ltb 0 (double_sum counts.*2)
           then mkStartupResult false
                  ("npm audit found " +:+ integer_text (double_sum counts.*2)
                   +:+ " vulnerabilities") None
           else mkStartupResult true "npm audit passed" None).
Proof.
  apply (audit_sums_numeric_counts
           (host_reporting (report_of (counts_object
              [("info", 0); ("low", 1); ("moderate", 0); ("high", 2); ("critical", 0)]%float)))
           fresh "<the report of npm audit>"
           [("auditReportVersion", JNumber 2);
            ("metadata", JObject [("vulnerabilities", counts_object
               [("info", 0); ("low", 1); ("moderate", 0); ("high", 2); ("critical", 0)]%float)])]
           [("vulnerabilities", counts_object
               [("info", 0); ("low", 1); ("moderate", 0); ("high", 2); ("critical", 0)]%float)]
           [("info", 0); ("low", 1); ("moderate", 0); ("high", 2); ("critical", 0)]%float);
    (reflexivity || discriminate).
Defined.

Lemma audit_passes_without_counts_witness :
  fst (runOptionalAuditCheck (host_reporting (JObject [("error", JString "ENOLOCK")])) fresh)
  = Value (mkStartupResult true "npm audit passed" None).
Proof.
  apply (audit_passes_without_counts (host_reporting (JObject [("error", JString "ENOLOCK")]))
           fresh "<the report of npm audit>" (JObject [("error", JString "ENOLOCK")]));
    first [reflexivity | discriminate | exact I].
Defined.

Example audit_three_found :
  fst (runOptionalAuditCheck
         (host_reporting (report_of (counts_object [("low", 1); ("high", 2)]%float))) fresh)
  = Value (mkStartupResult false "npm audit found 3 vulnerabilities" None).
Proof. reflexivity. Qed.

(** The sum is taken in the order of the report and rounds at every step:
    2^53 + 1 is 2^53 again, so the counts 2^53, 1, -2^53 add up to 0 and
    pass, while the same counts as 2^53, -2^53, 1 add up to 1 and block. *)
Example audit_sum_depends_on_order :
  let big := 9007199254740992%float in
  fst (runOptionalAuditCheck
         (host_reporting (report_of (counts_object [("a", big); ("b", 1); ("c", - big)]%float))) fresh)
  = Value (mkStartupResult true "npm audit passed" None) /\
  fst (runOptionalAuditCheck
         (host_reporting (report_of (counts_object [("a", big); ("c", - big); ("b", 1)]%float))) fresh)
  = Value (mkStartupResult false "npm audit found 1 vulnerabilities" None).
Proof. split; reflexivity. Qed.

(** Counts that are no numbers are concatenated: the text [1] after the
    number 0 gives the text [01], which reads as 1. *)
Example audit_text_count :
  fst (runOptionalAuditCheck
         (host_reporting (report_of (JObject [("low", JNumber 0); ("high", JString "1")]))) fresh)
  = Value (mkStartupResult false "npm audit found 01 vulnerabilities" None).
Proof. reflexivity. Qed.

(** ** Further properties of the process *)

(** *** One stimulus, case by case *)

(** The case analysis of [step h p s]: a dead process, then each stimulus
    with whatever it finds parked; [leaf] closes every case. *)
Ltac step_analysis h p s leaf :=
  unfold step; destruct (alive p) eqn:Halive; simpl; [|leaf];
  destruct s as [imported | s | imported | s | | s | sig | reason | err];
  [ destruct (app_pc p) eqn:Hpc; try leaf; unfold app_validator_imported;
    destruct imported as [[[| |[e|]] [| |[e'|]]]|]; leaf
  | destruct (app_pc p) eqn:Hpc; try leaf; unfold app_validated; destruct s as [|e]; leaf
  | destruct (app_pc p) eqn:Hpc; try leaf; unfold app_server_imported, startServerWithTimeout;
    destruct imported as [[[| |[e|]] sp]|]; leaf
  | destruct (race p) as [[[|sp] [|tp] [|rd]]|] eqn:Hrace; [..|leaf];
    unfold race_moved, app_started; destruct (app_pc p) eqn:Hpc; destruct s as [|e]; leaf
  | destruct (race p) as [[[|sp] [|tp] [|rd]]|] eqn:Hrace; [..|leaf];
    unfold race_moved, app_started; destruct (app_pc p) eqn:Hpc; leaf
  | destruct (awaiting_stop p) eqn:Haw; [|leaf];
    unfold shutdown_resume, shutdown_catch; destruct s as [|e]; leaf
  | unfold run, detached, try_catch; destruct (shuttingDown p) eqn:Hsd;
    [ rewrite shutdown_reentrant by done
    | rewrite shutdown_first by done; unfold shutdown_catch;
      destruct (serverInstance p) as [[st [| |[e|]]]|] eqn:Hinst ]; leaf
  | unfold on_unhandledRejection; leaf
  | unfold on_uncaughtException; leaf ].

Section Output.

Variable h : Host.

Lemma step_prints_no_stack (p : Proc) (s : Stimulus) :
  env_is_true h "DEBUG" = false ->
  Forall (fun a => prints_stack a = false) (trace p) ->
  Forall (fun a => prints_stack a = false) (trace (step h p s)).
Proof.
  intros Hdebug Hp.
  step_analysis h p s
    ltac:(solve [ unfold_monad; simpl; rewrite ?Hsd, ?Hdebug; simpl;
                  repeat match goal with
                         | |- context [env_is_true h ?v] => destruct (env_is_true h v); simpl
                         end;
                  rewrite ?Forall_app; repeat split; try done; repeat constructor ]).
Qed.

(** X3.  Unless [DEBUG] is exactly the text true, no stack trace is ever
    printed: in every process the event loop reaches, no console call
    carries the stack of an error. *)
Theorem stack_printed_only_in_debug (stimuli : list Stimulus) :
  env h !! "DEBUG" <> Some "true" ->
  Forall (fun a => prints_stack a = false) (trace (steps h (boot h) stimuli)).
Proof.
  intros Hdebug. apply env_is_true_false in Hdebug.
  induction stimuli as [|s stimuli IH] using rev_ind.
  - simpl. unfold boot.
    destruct (runOptionalAuditCheck_calls h fresh) as [r Hr].
    assert (Haudit : Forall (fun a => prints_stack a = false) (audit_calls h)).
    { unfold audit_calls. destruct (env_is_true h "ENFORCE_AUDIT"); [|done].
      destruct (error (npm_audit h)), (stdout (npm_audit h)) as [[|c text]|];
        repeat constructor. }
    destruct (ok r) eqn:Hok.
    + erewrite top_level_parked by (unfold app_begin, bind; rewrite Hr, Hok; reflexivity).
      unfold_monad. simpl. rewrite Forall_app. split; [done|]. repeat constructor.
    + erewrite top_level_raise by (unfold app_begin, bind; rewrite Hr, Hok; reflexivity).
      destruct (failed_with_fields h (Error ("Startup blocked: " +:+ msg r))
                  (emit (audit_calls h) fresh)) as (-> & _).
      unfold error_log. unfold_monad. simpl. rewrite Hdebug. simpl.
      rewrite Forall_app. split; [done|]. repeat constructor.
  - rewrite steps_app. simpl. by apply step_prints_no_stack.
Qed.

End Output.

Lemma stack_printed_only_in_debug_witness :
  Forall (fun a => prints_stack a = false)
    (trace (steps quiet_host (boot quiet_host) [ValidatorImported None; Signal SIGINT])).
Proof.
  apply (stack_printed_only_in_debug quiet_host [ValidatorImported None; Signal SIGINT]).
  vm_compute. discriminate.
Defined.

Section Exits.

Variable h : Host.

Lemma step_exit_code (p : Proc) (s : Stimulus) :
  exit_code p = None ->
  exit_code (step h p s) = None \/ exit_code (step h p s) = Some 0 \/
  (exit_code (step h p s) = Some 1 /\ exit_one_explained h (step h p s)).
Proof.
  intros Hec. unfold exit_one_explained.
  step_analysis h p s
    ltac:(solve [ unfold alive in Halive; rewrite Hec in Halive; discriminate
                | unfold_monad; simpl; rewrite ?Hsd; simpl;
                  repeat match goal with
                         | |- context [env_is_true h ?v] => destruct (env_is_true h v); simpl
                         end;
                  rewrite ?Hec;
                  first [ by left | by right; left
                        | right; right; split; [done|];
                          first [ by left; eexists | by right; left | by right; right ] ] ]).
Qed.

(** X4.  The script ends the process with code 0 or 1 and no other; and a
    process that exited with 1 either failed its bootstrap or runs with one
    of the two crash variables set to the text true. *)
Theorem exit_codes_are_zero_or_one (stimuli : list Stimulus) :
  let p := steps h (boot h) stimuli in
  (exit_code p = None \/ exit_code p = Some 0 \/ exit_code p = Some 1) /\
  (exit_code p = Some 1 ->
   (exists err, app_pc p = AppRejected err) \/
   env h !! "CRASH_ON_UNHANDLED_REJECTION" = Some "true" \/
   env h !! "CRASH_ON_UNCAUGHT_EXCEPTION" = Some "true").
Proof.
  intros p.
  assert (Hinv : exit_code p = None \/ exit_code p = Some 0 \/
                 (exit_code p = Some 1 /\ exit_one_explained h p)).
  { subst p. induction stimuli as [|s stimuli IH] using rev_ind.
    - simpl. unfold boot.
      destruct (runOptionalAuditCheck_calls h fresh) as [r Hr].
      destruct (ok r) eqn:Hok.
      + erewrite top_level_parked by (unfold app_begin, bind; rewrite Hr, Hok; reflexivity).
        by left.
      + erewrite top_level_raise by (unfold app_begin, bind; rewrite Hr, Hok; reflexivity).
        destruct (failed_with_fields h (Error ("Startup blocked: " +:+ msg r))
                    (emit (audit_calls h) fresh)) as (_ & Hex & Hpc & _).
        right; right. split; [done|]. left. eauto.
    - rewrite steps_app. simpl.
      destruct (exit_code (steps h (boot h) stimuli)) as [c|] eqn:Hec.
      + by rewrite step_exited, Hec by congruence.
      + by apply step_exit_code. }
  split.
  - destruct Hinv as [H | [H | [H _]]]; auto.
  - intros Hone. destruct Hinv as [H | [H | [_ H]]]; [congruence..|].
    unfold exit_one_explained in H. rewrite !env_is_true_spec in H. exact H.
Qed.

End Exits.

Section Handle.

Variable h : Host.

(** Once [app] has run to its end, nothing moves it and nothing touches the
    handle. *)
Lemma step_after_start (p : Proc) (s : Stimulus) :
  app_pc p = AppFulfilled ->
  app_pc (step h p s) = AppFulfilled /\ serverInstance (step h p s) = serverInstance p.
Proof.
  intros Hdone.
  step_analysis h p s
    ltac:(solve [ congruence
                | unfold_monad; simpl; rewrite ?Hsd, ?Hpc; simpl;
                  repeat match goal with
                         | |- context [env_is_true h ?v] => destruct (env_is_true h v); simpl
                         end;
                  done ]).
Qed.

Lemma steps_after_start (stimuli : list Stimulus) (p : Proc) :
  app_pc p = AppFulfilled ->
  app_pc (steps h p stimuli) = AppFulfilled /\
  serverInstance (steps h p stimuli) = serverInstance p.
Proof.
  revert p. induction stimuli as [|s stimuli IH]; intros p Hpc; [done|].
  simpl. destruct (step_after_start p s Hpc) as [Hpc' Hinst].
  destruct (IH _ Hpc') as [Hpc'' Hinst']. split; congruence.
Qed.

(** X5.  The recorded handle is never cleared and never replaced: once
    [serverInstance] holds a server, it holds that server in every later
    process, also after [shutdown] ran and after the process exited. *)
Theorem handle_is_never_cleared (before after : list Stimulus) (server : ServerModule) :
  serverInstance (steps h (boot h) before) = Some server ->
  serverInstance (steps h (boot h) (before ++ after)) = Some server.
Proof.
  intros Hserver. rewrite steps_app.
  destruct (invariant_steps h before) as [Hc _].
  pose proof (pc_state _ Hc) as Hstate.
  assert (Hpc : app_pc (steps h (boot h) before) = AppFulfilled).
  { destruct (app_pc (steps h (boot h) before)); try done; destruct Hstate; congruence. }
  destruct (steps_after_start after _ Hpc) as [_ Hinst]. congruence.
Qed.

(** A stimulus either calls [stop()] on the recorded handle or calls it not
    at all. *)
Lemma step_stop_on_handle (p : Proc) (s : Stimulus) :
  stop_calls (trace (step h p s)) = stop_calls (trace p) \/
  (shuttingDown (step h p s) = true /\
   exists server body, serverInstance p = Some server /\ stop server = Function body).
Proof.
  step_analysis h p s
    ltac:(solve [ by left
                | unfold_monad; simpl; rewrite ?Hsd; simpl;
                  repeat match goal with
                         | |- context [env_is_true h ?v] => destruct (env_is_true h v); simpl
                         end;
                  first [ left; rewrite ?stop_calls_app; unfold stop_calls; simpl; lia
                        | right; split; [done|]; rewrite ?Hinst; eauto ] ]).
Qed.

(** X6.  [stop()] is only ever called on a server that started: in every
    process the event loop reaches, a trace that holds a call of [stop()]
    belongs to a process that is shutting down, whose [app] ran to its end and
    whose recorded handle has a [stop] function. *)
Theorem stop_only_after_start (stimuli : list Stimulus) :
  let p := steps h (boot h) stimuli in
  stop_calls (trace p) <> 0%nat ->
  shuttingDown p = true /\ app_pc p = AppFulfilled /\
  exists server body, serverInstance p = Some server /\ stop server = Function body.
Proof.
  intros p. subst p. induction stimuli as [|s stimuli IH] using rev_ind.
  - intros Hstops. exfalso. apply Hstops.
    destruct (invariant_boot h) as [Hc Ho].
    destruct (shuttingDown (steps h (boot h) [])) eqn:Hsd.
    + simpl in *. unfold boot in Hsd.
      destruct (runOptionalAuditCheck_calls h fresh) as [r Hr].
      destruct (ok r) eqn:Hok.
      * erewrite top_level_parked in Hsd
          by (unfold app_begin, bind; rewrite Hr, Hok; reflexivity). discriminate.
      * erewrite top_level_raise in Hsd
          by (unfold app_begin, bind; rewrite Hr, Hok; reflexivity).
        destruct (failed_with_fields h (Error ("Startup blocked: " +:+ msg r))
                    (emit (audit_calls h) fresh)) as (_ & _ & _ & _ & Hsd' & _).
        rewrite Hsd' in Hsd. discriminate.
    + by apply (stop_needs_shutdown _ _ Ho).
  - rewrite steps_app. simpl. set (p := steps h (boot h) stimuli) in *.
    intros Hstops.
    destruct (invariant_steps h stimuli) as [Hc Ho]. fold p in Hc, Ho.
    destruct (invariant_step h p s Hc Ho) as [Hc' Ho'].
    assert (Hsd' : shuttingDown (step h p s) = true).
    { destruct (shuttingDown (step h p s)) eqn:Hsd; [done|].
      by pose proof (stop_needs_shutdown _ _ Ho' Hsd). }
    pose proof (pc_state _ Hc) as Hstate.
    assert (Hfulfilled : forall server, serverInstance p = Some server -> app_pc p = AppFulfilled).
    { intros server Hserver. destruct (app_pc p); try done; destruct Hstate; congruence. }
    destruct (step_stop_on_handle p s) as [Hsame | (_ & server & body & Hserver & Hstop)].
    + rewrite Hsame in Hstops. destruct (IH Hstops) as (_ & Hpc & server & body & Hserver & Hstop).
      destruct (step_after_start p s Hpc) as [Hpc' Hinst].
      split; [done|]. split; [done|]. exists server, body. split; congruence.
    + pose proof (Hfulfilled _ Hserver) as Hpc.
      destruct (step_after_start p s Hpc) as [Hpc' Hinst].
      split; [done|]. split; [done|]. exists server, body. split; congruence.
Qed.

(** X7.  A timer that fires after the server started does nothing: the
    race stays resolved, nothing is printed, the process keeps running with
    its handle. *)
Theorem late_timer_is_ignored (stimuli : list Stimulus) :
  let p := steps h (boot h) stimuli in
  is_Some (serverInstance p) ->
  let p' := step h p TimerFired in
  trace p' = trace p /\ exit_code p' = exit_code p /\
  serverInstance p' = serverInstance p /\ shuttingDown p' = shuttingDown p /\
  awaiting_stop p' = awaiting_stop p /\ app_pc p' = AppFulfilled /\
  exists r, race p' = Some r /\ raced r = Settled Fulfilled.
Proof.
  intros p [server Hserver] p'. subst p'.
  destruct (invariant_steps h stimuli) as [Hc _]. fold p in Hc.
  pose proof (pc_state _ Hc) as Hstate.
  destruct (app_pc p) eqn:Hpc; try done; try (destruct Hstate; congruence).
  destruct Hstate as (_ & r & Hrace & Hraced).
  unfold step. destruct (alive p); simpl.
  - rewrite Hrace. unfold race_moved. rewrite Hpc. unfold_monad. simpl.
    repeat (split; [done|]). eexists. split; [reflexivity|].
    apply (raced_settled_stays [TimerFires]), Hraced.
  - repeat (split; [done|]). eauto.
Qed.

End Handle.

Lemma late_timer_is_ignored_witness :
  let p' := step quiet_host running TimerFired in
  trace p' = trace running /\ exit_code p' = exit_code running /\
  serverInstance p' = serverInstance running /\ shuttingDown p' = shuttingDown running /\
  awaiting_stop p' = awaiting_stop running /\ app_pc p' = AppFulfilled /\
  exists r, race p' = Some r /\ raced r = Settled Fulfilled.
Proof.
  apply (late_timer_is_ignored quiet_host
           [ValidatorImported (Some sample_validator); ValidatorSettled Fulfilled;
            ServerImported (Some sample_server); StartSettled Fulfilled]).
  vm_compute. eauto.
Defined.

Lemma handle_is_never_cleared_witness :
  serverInstance (steps quiet_host (boot quiet_host)
                    ([ValidatorImported (Some sample_validator); ValidatorSettled Fulfilled;
                      ServerImported (Some sample_server); StartSettled Fulfilled]
                     ++ [Signal SIGTERM; StopSettled Fulfilled]))
  = Some sample_server.
Proof.
  apply (handle_is_never_cleared quiet_host
           [ValidatorImported (Some sample_validator); ValidatorSettled Fulfilled;
            ServerImported (Some sample_server); StartSettled Fulfilled]
           [Signal SIGTERM; StopSettled Fulfilled] sample_server).
  reflexivity.
Defined.

Lemma stop_only_after_start_witness :
  let p := steps quiet_host (boot quiet_host)
             [ValidatorImported (Some sample_validator); ValidatorSettled Fulfilled;
              ServerImported (Some sample_server); StartSettled Fulfilled; Signal SIGINT] in
  shuttingDown p = true /\ app_pc p = AppFulfilled /\
  exists server body, serverInstance p = Some server /\ stop server = Function body.
Proof.
  apply (stop_only_after_start quiet_host
           [ValidatorImported (Some sample_validator); ValidatorSettled Fulfilled;
            ServerImported (Some sample_server); StartSettled Fulfilled; Signal SIGINT]).
  vm_compute. discriminate.
Defined.

(** Runs a straight-line program on a known process, leaving [step] alone. *)
Ltac flat :=
  unfold_monad;
  cbn [serverInstance shuttingDown app_pc race awaiting_stop trace exit_code fst snd].

Section Success.

Variable h : Host.

Lemma boot_alive :
  exit_code (boot h) = None ->
  boot h = run (act (Import validateDependenciesBasic_js) ;; set_app_pc AwaitValidatorImport)
               (emit (audit_calls h) fresh).
Proof.
  unfold boot. destruct (runOptionalAuditCheck_calls h fresh) as [r Hr].
  destruct (ok r) eqn:Hok.
  - by erewrite top_level_parked by (unfold app_begin, bind; rewrite Hr, Hok; reflexivity).
  - erewrite top_level_raise by (unfold app_begin, bind; rewrite Hr, Hok; reflexivity).
    destruct (failed_with_fields h (Error ("Startup blocked: " +:+ msg r))
                (emit (audit_calls h) fresh)) as (_ & -> & _).
    discriminate.
Qed.

Lemma step_validator_imported (p : Proc) (validateModule : ValidatorModule) :
  exit_code p = None -> app_pc p = AwaitValidatorImport ->
  member_or (default validateModule)
    (member_or (validateDependencies validateModule) NotCallable) = Function Returns ->
  step h p (ValidatorImported (Some validateModule))
  = run (act CallValidate ;; set_app_pc AwaitValidator) p.
Proof.
  intros Hec Hpc Hmember. unfold step, alive. rewrite Hec, Hpc. simpl.
  by erewrite top_level_parked
    by (unfold app_validator_imported; rewrite Hmember; reflexivity).
Qed.

Lemma step_validated (p : Proc) :
  exit_code p = None -> app_pc p = AwaitValidator ->
  step h p (ValidatorSettled Fulfilled)
  = run (act (Import server_js) ;; set_app_pc AwaitServerImport) p.
Proof.
  intros Hec Hpc. unfold step, alive. rewrite Hec, Hpc. simpl.
  by erewrite top_level_parked by reflexivity.
Qed.

Lemma step_server_imported (p : Proc) (server : ServerModule) :
  exit_code p = None -> app_pc p = AwaitServerImport ->
  start server = Function Returns ->
  step h p (ServerImported (Some server))
  = run (act CallStart ;; act (SetTimeout (startup_timeout h)) ;;
         set_race (Some pending_race) ;; set_app_pc (AwaitStart server)) p.
Proof.
  intros Hec Hpc Hstart. unfold step, alive. rewrite Hec, Hpc. simpl.
  by erewrite top_level_parked
    by (unfold app_server_imported, startServerWithTimeout; rewrite Hstart; reflexivity).
Qed.

Lemma step_started (p : Proc) (server : ServerModule) :
  exit_code p = None -> app_pc p = AwaitStart server -> race p = Some pending_race ->
  step h p (StartSettled Fulfilled)
  = run (set_race (Some (settle_start Fulfilled pending_race)) ;;
         set_serverInstance server ;; console_log [Text "[SERVER] started"] ;;
         set_app_pc AppFulfilled) p.
Proof.
  intros Hec Hpc Hrace. unfold step, alive. rewrite Hec, Hrace. simpl.
  unfold race_moved. rewrite Hpc. simpl.
  by erewrite top_level_value by reflexivity.
Qed.

(** X8.  When the audit does not block, the chosen validator export is a
    function whose promise fulfils, and [start()] returns a promise that
    fulfils before the timer fires, [app] runs to its end: the server is
    recorded as [serverInstance], the process keeps running, and the calls
    made are the whole bootstrap script and nothing else. *)
Theorem bootstrap_succeeds (validateModule : ValidatorModule) (server : ServerModule) :
  exit_code (boot h) = None ->
  member_or (default validateModule)
    (member_or (validateDependencies validateModule) NotCallable) = Function Returns ->
  start server = Function Returns ->
  let p := steps h (boot h)
             [ValidatorImported (Some validateModule); ValidatorSettled Fulfilled;
              ServerImported (Some server); StartSettled Fulfilled] in
  serverInstance p = Some server /\ app_pc p = AppFulfilled /\
  exit_code p = None /\ shuttingDown p = false /\
  trace p = bootstrap_script h.
Proof.
  intros Halive Hmember Hstart p. subst p.
  rewrite (boot_alive Halive). unfold steps. cbn [fold_left].
  flat.
  rewrite (step_validator_imported _ validateModule); [|reflexivity|reflexivity|exact Hmember].
  flat.
  rewrite step_validated; [|reflexivity|reflexivity].
  flat.
  rewrite (step_server_imported _ server); [|reflexivity|reflexivity|exact Hstart].
  flat.
  rewrite (step_started _ server); [|reflexivity|reflexivity|reflexivity].
  flat. repeat (split; [reflexivity|]).
  unfold bootstrap_script, steps_after_audit. by rewrite <- !app_assoc.
Qed.

End Success.

Lemma bootstrap_succeeds_witness :
  let p := steps quiet_host (boot quiet_host)
             [ValidatorImported (Some sample_validator); ValidatorSettled Fulfilled;
              ServerImported (Some sample_server); StartSettled Fulfilled] in
  serverInstance p = Some sample_server /\ app_pc p = AppFulfilled /\
  exit_code p = None /\ shuttingDown p = false /\
  trace p = bootstrap_script quiet_host.
Proof.
  apply (bootstrap_succeeds quiet_host sample_validator sample_server); reflexivity.
Defined.

Section Once.

Variable h : Host.

Lemma filter_within (f g : Action -> bool) (l : list Action) :
  (forall a, f a = true -> g a = true) ->
  List.filter f (List.filter g l) = List.filter f l.
Proof.
  intros Hfg. induction l as [|a l IH]; [done|]. simpl.
  destruct (g a) eqn:Hg; simpl.
  - by rewrite IH.
  - destruct (f a) eqn:Hf; [|exact IH]. apply Hfg in Hf. congruence.
Qed.

Lemma calls_within_script (f : Action -> bool) (stimuli : list Stimulus) :
  (forall a, f a = true -> is_bootstrap_action a = true) ->
  (calls f (trace (steps h (boot h) stimuli)) <= calls f (bootstrap_script h))%nat.
Proof.
  intros Hf. destruct (invariant_steps h stimuli) as [_ Ho].
  destruct (filter_bootstrap_prefix h _ Ho) as [rest Hrest].
  unfold calls. rewrite <- (filter_within f is_bootstrap_action) by done.
  rewrite Hrest, List.filter_app, length_app. lia.
Qed.

Lemma calls_in_audit (f : Action -> bool) :
  (forall cmd args, f (SpawnSync cmd args) = false) ->
  (forall text, f (JsonParse text) = false) ->
  calls f (audit_calls h) = 0%nat.
Proof.
  intros Hspawn Hparse. unfold calls, audit_calls.
  destruct (env_is_true h "ENFORCE_AUDIT"); [|done].
  destruct (error (npm_audit h)), (stdout (npm_audit h)) as [[|c text]|];
    simpl; rewrite ?Hspawn, ?Hparse; done.
Qed.

(** The timer is armed right after [start()] was called, with the delay of
    line 96. *)
Lemma timer_follows_start (stimuli : list Stimulus) (ms : JsNumber)
    (before after : list Action) :
  trace (steps h (boot h) stimuli) = before ++ SetTimeout ms :: after ->
  ms = startup_timeout h /\ CallStart ∈ before.
Proof.
  intros Htrace.
  destruct (invariant_steps h stimuli) as [_ Ho].
  destruct (filter_bootstrap_prefix h _ Ho) as [rest Hrest].
  rewrite Htrace, List.filter_app in Hrest. cbn [List.filter is_bootstrap_action] in Hrest.
  rewrite <- app_assoc in Hrest. unfold bootstrap_script in Hrest.
  apply app_eq_app in Hrest as [k [[Haudit Hk] | [Hbefore Hk]]].
  - exfalso. destruct k as [|a k].
    + discriminate Hk.
    + injection Hk as <- _.
      pose proof (calls_in_audit is_timer (fun _ _ => eq_refl) (fun _ => eq_refl)) as Hnone.
      unfold calls in Hnone. rewrite Haudit, List.filter_app, length_app in Hnone.
      simpl in Hnone. lia.
  - unfold steps_after_audit in Hk.
    destruct k as [|k1 [|k2 [|k3 [|k4 [|k5 [|k6 k]]]]]]; simplify_eq/=;
      try (by destruct k).
    split; [done|].
    apply list_elem_of_In.
    apply (proj1 (List.filter_In is_bootstrap_action _ before)).
    rewrite Hbefore. apply in_or_app. right. simpl. tauto.
Qed.

(** X9.  No step of the bootstrap runs twice: in every process the event
    loop reaches, [start()] and the validator were each called at most once,
    each module was imported at most once, the audit tool was spawned at most
    once and at most one timer was armed; and wherever a timer is armed in
    the trace, it has the delay [Number(process.env.STARTUP_TIMEOUT_MS) || 30000]
    and [start()] was called before it. *)
Theorem bootstrap_calls_at_most_once (stimuli : list Stimulus) :
  let t := trace (steps h (boot h) stimuli) in
  (calls is_start_call t <= 1)%nat /\
  (calls is_validate_call t <= 1)%nat /\
  (calls (is_import validateDependenciesBasic_js) t <= 1)%nat /\
  (calls (is_import server_js) t <= 1)%nat /\
  (calls is_spawn t <= 1)%nat /\
  (calls is_timer t <= 1)%nat /\
  (forall ms before after,
     t = before ++ SetTimeout ms :: after ->
     ms = startup_timeout h /\ CallStart ∈ before).
Proof.
  intros t. subst t.
  assert (Hscript : forall f,
             calls f (bootstrap_script h)
             = (calls f (audit_calls h) + calls f (steps_after_audit h))%nat).
  { intros f. unfold calls, bootstrap_script. by rewrite List.filter_app, length_app. }
  split; [|split; [|split; [|split; [|split; [|split]]]]].
  1-4,6: etransitivity; [apply calls_within_script; by intros []|];
         rewrite Hscript, calls_in_audit by done; vm_compute; lia.
  - etransitivity; [apply calls_within_script; by intros []|].
    rewrite Hscript. unfold calls at 1, audit_calls.
    destruct (env_is_true h "ENFORCE_AUDIT"); [|cbn; lia].
    destruct (error (npm_audit h)), (stdout (npm_audit h)) as [[|c text]|]; cbn; lia.
  - intros ms before after. apply timer_follows_start.
Qed.

End Once.

Section Edges.

Variable h : Host.

(** X10.  The [default] export of the validator module shadows
    [validateDependencies]: when [default] is truthy but no function,
    bootstrap fails with a TypeError without calling anything, even when
    [validateDependencies] is a function; and when [default] is a function
    it is the one called, whatever [validateDependencies] is. *)
Theorem default_export_shadows_validator (p : Proc) (named other : Member) :
  exit_code p = None ->
  app_pc p = AwaitValidatorImport ->
  (let p' := step h p (ValidatorImported (Some (mkValidatorModule NotCallable named))) in
   let err := TypeError "validateDependencies is not a function" in
   exit_code p' = Some 1 /\ app_pc p' = AppRejected err /\
   trace p' = trace p ++ error_log h err ++ [ProcessExit 1]) /\
  (forall body,
     step h p (ValidatorImported (Some (mkValidatorModule (Function body) named)))
     = step h p (ValidatorImported (Some (mkValidatorModule (Function body) other)))) /\
  (let p' := step h p (ValidatorImported (Some (mkValidatorModule Absent (Function Returns)))) in
   exit_code p' = None /\ app_pc p' = AwaitValidator /\ trace p' = trace p ++ [CallValidate]).
Proof.
  intros Hec Hpc. split; [|split].
  - intros p' err. subst p'.
    destruct (failure_exits_with_one h p
                (ValidatorImported (Some (mkValidatorModule NotCallable named))) [] err Hec)
      as (Htr & Hex & Hpc').
    + unfold failure. by rewrite Hpc.
    + by rewrite Htr, Hex, Hpc'.
  - intros body. unfold step, alive. by rewrite Hec, Hpc.
  - intros p'. subst p'. rewrite step_validator_imported by done.
    unfold_monad. simpl. by rewrite Hec.
Qed.

(** X11.  An execution error of the audit tool takes precedence over
    anything it printed: under enforcement the result is
    [{ok: false, message: 'Failed to execute npm audit'}] with the tool's own
    message only in [details], the output is not parsed, and startup ends with
    exit code 1 after printing the fixed message, not the details. *)
Theorem audit_tool_failure_blocks (e : JsError) :
  env h !! "ENFORCE_AUDIT" = Some "true" ->
  error (npm_audit h) = Some e ->
  fst (runOptionalAuditCheck h fresh)
  = Value (mkStartupResult false "Failed to execute npm audit" (Some (message e))) /\
  exit_code (boot h) = Some 1 /\
  trace (boot h)
  = [SpawnSync "npm" ["audit"; "--json"; "--production"];
     ConsoleError [Text "[STARTUP ERROR]"; Text "Startup blocked: Failed to execute npm audit"];
     (if env_is_true h "DEBUG"
      then ConsoleError [StackOf (Error "Startup blocked: Failed to execute npm audit")]
      else ConsoleError [Text "Set DEBUG=true to see stack trace."]);
     ProcessExit 1].
Proof.
  intros Hon Herr. apply env_is_true_spec in Hon.
  assert (Hrun : runOptionalAuditCheck h fresh
                 = (Value (mkStartupResult false "Failed to execute npm audit" (Some (message e))),
                    emit [SpawnSync "npm" ["audit"; "--json"; "--production"]] fresh)).
  { unfold runOptionalAuditCheck, try_catch, bind, act, ret. by rewrite Hon, Herr. }
  split; [by rewrite Hrun|].
  unfold boot.
  erewrite top_level_raise by (unfold app_begin, bind; rewrite Hrun; reflexivity).
  unfold_monad. simpl. by destruct (env_is_true h "DEBUG").
Qed.

End Edges.

Lemma default_export_shadows_validator_witness :
  let p := boot quiet_host in
  (let p' := step quiet_host p
               (ValidatorImported (Some (mkValidatorModule NotCallable (Function Returns)))) in
   let err := TypeError "validateDependencies is not a function" in
   exit_code p' = Some 1 /\ app_pc p' = AppRejected err /\
   trace p' = trace p ++ error_log quiet_host err ++ [ProcessExit 1]) /\
  (forall body,
     step quiet_host p
       (ValidatorImported (Some (mkValidatorModule (Function body) (Function Returns))))
     = step quiet_host p
         (ValidatorImported (Some (mkValidatorModule (Function body) Absent)))) /\
  (let p' := step quiet_host p
               (ValidatorImported (Some (mkValidatorModule Absent (Function Returns)))) in
   exit_code p' = None /\ app_pc p' = AwaitValidator /\ trace p' = trace p ++ [CallValidate]).
Proof.
  apply (default_export_shadows_validator quiet_host (boot quiet_host) (Function Returns) Absent);
    reflexivity.
Defined.

Lemma audit_tool_failure_blocks_witness :
  let h := sample_host [("ENFORCE_AUDIT", "true")]
             (mkSpawnResult (Some (mkJsError "Error" "spawnSync npm ENOENT")) None) in
  fst (runOptionalAuditCheck h fresh)
  = Value (mkStartupResult false "Failed to execute npm audit" (Some "spawnSync npm ENOENT")) /\
  exit_code (boot h) = Some 1 /\
  trace (boot h)
  = [SpawnSync "npm" ["audit"; "--json"; "--production"];
     ConsoleError [Text "[STARTUP ERROR]"; Text "Startup blocked: Failed to execute npm audit"];
     (if env_is_true h "DEBUG"
      then ConsoleError [StackOf (Error "Startup blocked: Failed to execute npm audit")]
      else ConsoleError [Text "Set DEBUG=true to see stack trace."]);
     ProcessExit 1].
Proof.
  apply (audit_tool_failure_blocks
           (sample_host [("ENFORCE_AUDIT", "true")]
              (mkSpawnResult (Some (mkJsError "Error" "spawnSync npm ENOENT")) None))
           (mkJsError "Error" "spawnSync npm ENOENT")); reflexivity.
Defined.
